(** * The filter-and-segment pipeline of [dashboard01.py]

    A shallow embedding of the dashboard script: the loader ([load_data]),
    the sidebar filters, the three summary metrics, the map and the
    charts as far as they can stop the run, the segment classifier and
    the table and CSV adapters, followed by the properties of the
    pipeline that the written specification states.

    Conventions of the embedding.
    - A float64 value is an [option Q]: [Some q] is a finite number and
      [None] is NaN, the missing value of pandas.  Comparisons, [abs],
      [int()], minimum and maximum are exact on finite floats, so they are
      modelled without loss; sums, means and [round] are computed over the
      rationals, which agrees with float64 wherever the float operations
      are exact.  Infinities are not modelled.
    - A DataFrame is the list of its rows, each carrying its index label,
      with two flags telling whether the optional columns exist.
    - Streamlit widgets return what the user picked, or their default when
      the user has not touched them; the slider refuses a range whose
      bounds are not in strict order.
    - [sort_values] is called with the default [kind] ('quicksort'), for
      which pandas promises a sorted permutation with NaN keys last and
      nothing about ties: it is modelled by that contract, as a relation. *)

From Stdlib Require Import ZArith QArith Qround Qabs List String Bool Lia Lqa.
From Stdlib Require Import Permutation Sorted DecimalString.
Import ListNotations.
Local Open Scope Z_scope.

(** ** Numbers *)

Module Num.

Definition float := option Q.

Definition isna (x : float) : bool :=
  match x with Some _ => false | None => true end.

(** [int(x)] on a finite float: truncation toward zero. *)
Definition py_int (q : Q) : Z := Z.quot (Qnum q) (Zpos (Qden q)).

(** Comparisons of a float with a Python int; all are False on NaN. *)
Definition ge_int (x : float) (z : Z) : bool :=
  match x with Some q => Qle_bool (inject_Z z) q | None => false end.

Definition le_int (x : float) (z : Z) : bool :=
  match x with Some q => Qle_bool q (inject_Z z) | None => false end.

Definition gt_int (x : float) (z : Z) : bool :=
  match x with Some q => negb (Qle_bool q (inject_Z z)) | None => false end.

Definition lt_int (x : float) (z : Z) : bool :=
  match x with Some q => negb (Qle_bool (inject_Z z) q) | None => false end.

(** [Series.abs()] *)
Definition fabs (x : float) : float := option_map Qabs x.

(** [Series.dropna()] on a numeric column. *)
Fixpoint dropna (l : list float) : list Q :=
  match l with
  | [] => []
  | Some q :: t => q :: dropna t
  | None :: t => dropna t
  end.

Definition qmin (a b : Q) : Q := if Qle_bool a b then a else b.
Definition qmax (a b : Q) : Q := if Qle_bool a b then b else a.

(** [Series.min()], [Series.max()]: NaN is skipped, and the result is NaN
    when nothing is left. *)
Definition series_min (l : list float) : float :=
  match dropna l with
  | [] => None
  | q :: t => Some (fold_left qmin t q)
  end.

Definition series_max (l : list float) : float :=
  match dropna l with
  | [] => None
  | q :: t => Some (fold_left qmax t q)
  end.

Definition qsum (l : list Q) : Q := fold_right Qplus 0%Q l.

(** [Series.sum()]: NaN is skipped, the empty sum is 0.  The sum is taken
    over the rationals: it is the program's value where no float64
    addition rounds and no int64 addition wraps. *)
Definition series_sum (l : list float) : Q := qsum (dropna l).

(** [Series.mean()]: NaN is skipped, the mean of nothing is NaN.  Whether
    the mean is NaN is exact; its value is taken over the rationals. *)
Definition series_mean (l : list float) : float :=
  match dropna l with
  | [] => None
  | v => Some (qsum v / inject_Z (Z.of_nat (List.length v)))%Q
  end.

(** Rounding to the nearest integer, halves to the even neighbour. *)
Definition round_half_even (q : Q) : Z :=
  let f := Qfloor q in
  match Qcompare (q - inject_Z f) (1 # 2) with
  | Lt => f
  | Gt => f + 1
  | Eq => if Z.even f then f else f + 1
  end.

(** [round(x, 1)]; NaN stays NaN. *)
Definition py_round1 (x : float) : float :=
  option_map (fun q => Qmake (round_half_even (q * 10)) 10) x.

End Num.

(** ** Tables *)

Module Frame.
Import Num.

(** A cell as the spreadsheet reader delivers it. *)
Inductive cell : Type :=
| CNum (q : Q)
| CText (s : string)
| CNull.

(** An income-group code: an integer, a whole number held in a float64
    column (the column of numeric codes that has an empty cell), or a
    string. *)
Inductive label : Type :=
| LInt (z : Z)
| LFloat (z : Z)
| LText (s : string).

Record RawRow : Type := mkRawRow {
  raw_location_name : cell;
  raw_latitude : cell;
  raw_longitude : cell;
  raw_visit_count : cell;
  raw_huff_predicted_visits_scaled : cell;
  raw_visits_gap_scaled : cell;
  raw_cluster : option Z;
  raw_income_group : option label
}.

Record RawTable : Type := mkRawTable {
  raw_has_cluster : bool;
  raw_has_income_group : bool;
  raw_rows : list RawRow
}.

Record Row : Type := mkRow {
  index : nat;
  location_name : cell;
  latitude : cell;
  longitude : cell;
  visit_count : float;
  huff_predicted_visits_scaled : float;
  visits_gap_scaled : float;
  cluster : option Z;
  income_group : option label
}.

Record DataFrame : Type := mkDataFrame {
  has_cluster : bool;
  has_income_group : bool;
  rows : list Row
}.

Definition set_rows (df : DataFrame) (l : list Row) : DataFrame :=
  {| has_cluster := has_cluster df;
     has_income_group := has_income_group df;
     rows := l |}.

Inductive error : Type :=
| ValueError
| KeyError
| TypeError
| StreamlitAPIException.

Inductive result (A : Type) : Type :=
| Ok (a : A)
| Raise (e : error).

Arguments Ok {A} a.
Arguments Raise {A} e.

Definition bind {A B} (m : result A) (k : A -> result B) : result B :=
  match m with Ok a => k a | Raise e => Raise e end.

Definition notna (c : cell) : bool :=
  match c with CNull => false | _ => true end.

Definition label_eqb (a b : label) : bool :=
  match a, b with
  | LInt x, LInt y => Z.eqb x y
  | LFloat x, LFloat y => Z.eqb x y
  | LText s, LText t => String.eqb s t
  | _, _ => false
  end.

(** [str(g)] of an income-group code: an integer prints its digits, a
    whole float prints them followed by '.0'. *)
Definition str (g : label) : string :=
  match g with
  | LInt z => NilZero.string_of_int (Z.to_int z)
  | LFloat z => NilZero.string_of_int (Z.to_int z) ++ ".0"
  | LText s => s
  end.

(** [astype(str)]: a missing value becomes the text 'nan'. *)
Definition astype_str (g : option label) : string :=
  match g with Some l => str l | None => "nan"%string end.

(** [Series.unique()]: the distinct values, in order of first appearance. *)
Fixpoint unique {A} (eqb : A -> A -> bool) (l : list A) : list A :=
  match l with
  | [] => []
  | x :: t => x :: filter (fun y => negb (eqb x y)) (unique eqb t)
  end.

Fixpoint drop_missing {A} (l : list (option A)) : list A :=
  match l with
  | [] => []
  | Some a :: t => a :: drop_missing t
  | None :: t => drop_missing t
  end.

Fixpoint insert_sorted (x : Z) (l : list Z) : list Z :=
  match l with
  | [] => [x]
  | y :: t => if Z.leb x y then x :: y :: t else y :: insert_sorted x t
  end.

(** [sorted(...)] on integer labels. *)
Definition sorted (l : list Z) : list Z := fold_right insert_sorted [] l.

(** [Series.isin(values)] *)
Definition isin_cluster (c : option Z) (values : list Z) : bool :=
  match c with
  | Some z => existsb (Z.eqb z) values
  | None => false
  end.

Definition isin_str (s : string) (values : list string) : bool :=
  existsb (String.eqb s) values.

End Frame.

(** ** Loader: [load_data] *)

Module Loader.
Import Num Frame.

Section WithParser.

(** The text-to-number parser behind [pd.to_numeric]: the number a text
    cell denotes, or nothing when the text is not a number. *)
Variable parse_number : string -> option Q.

(** [pd.to_numeric(col, errors='coerce')] on one cell. *)
Definition to_numeric (c : cell) : float :=
  match c with
  | CNum q => Some q
  | CText s => parse_number s
  | CNull => None
  end.

(** Lines 18-20 on the row read at position [i]. *)
Definition coerce (i : nat) (r : RawRow) : Row :=
  {| index := i;
     location_name := raw_location_name r;
     latitude := raw_latitude r;
     longitude := raw_longitude r;
     visit_count := to_numeric (raw_visit_count r);
     huff_predicted_visits_scaled :=
       to_numeric (raw_huff_predicted_visits_scaled r);
     visits_gap_scaled := to_numeric (raw_visits_gap_scaled r);
     cluster := raw_cluster r;
     income_group := raw_income_group r |}.

(** The row test of [dropna(subset=['latitude', 'longitude',
    'visit_count', 'huff_predicted_visits_scaled'])]. *)
Definition required_present (r : Row) : bool :=
  notna (latitude r) && notna (longitude r)
  && negb (isna (visit_count r))
  && negb (isna (huff_predicted_visits_scaled r)).

(** [pd.read_excel] numbers the rows 0, 1, 2, ... *)
Definition read_excel (t : list RawRow) : list (nat * RawRow) :=
  combine (seq 0 (List.length t)) t.

Definition load_data (tbl : RawTable) : DataFrame :=
  {| has_cluster := raw_has_cluster tbl;
     has_income_group := raw_has_income_group tbl;
     rows := filter required_present
               (map (fun p => coerce (fst p) (snd p))
                    (read_excel (raw_rows tbl))) |}.

End WithParser.

(** A parser instance for worked examples: unsigned decimal integers. *)
Definition digit_of (a : Ascii.ascii) : option Z :=
  let n := Z.of_nat (Ascii.nat_of_ascii a) in
  if Z.leb 48 n && Z.leb n 57 then Some (n - 48) else None.

Fixpoint parse_digits (acc : Z) (s : string) : option Z :=
  match s with
  | EmptyString => Some acc
  | String a t =>
      match digit_of a with
      | Some d => parse_digits (10 * acc + d) t
      | None => None
      end
  end.

Definition parse_unsigned (s : string) : option Q :=
  match s with
  | EmptyString => None
  | _ => option_map inject_Z (parse_digits 0 s)
  end.

End Loader.

(** ** Sidebar filters (lines 27-39) *)

Module Filters.
Import Num Frame.

(** What the user did with the three widgets; [None] is an untouched
    widget, which returns its default. *)
Record Sidebar : Type := mkSidebar {
  pick_clusters : option (list Z);
  pick_income : option (list string);
  pick_gap_range : option (Z * Z)
}.

Definition untouched : Sidebar :=
  {| pick_clusters := None; pick_income := None; pick_gap_range := None |}.

(** [st.sidebar.multiselect(label, options, default=default)] *)
Definition multiselect {A} (pick : option (list A)) (options default : list A)
  : list A :=
  match pick with Some s => s | None => default end.

(** [st.sidebar.slider(label, lo, hi, default)]: the widget refuses a
    [min_value] that is not below its [max_value] and stops the run. *)
Definition slider (pick : option (Z * Z)) (lo hi : Z) (default : Z * Z)
  : result (Z * Z) :=
  if Z.ltb lo hi
  then Ok (match pick with Some r => r | None => default end)
  else Raise StreamlitAPIException.

Definition cluster_options (df : DataFrame) : list Z :=
  sorted (unique Z.eqb (drop_missing (map cluster (rows df)))).

Definition selected_clusters (ui : Sidebar) (df : DataFrame) : list Z :=
  let options := cluster_options df in
  multiselect (pick_clusters ui) options options.

(** Lines 27-30. *)
Definition filter_cluster (ui : Sidebar) (df : DataFrame) : DataFrame :=
  if has_cluster df then
    set_rows df
      (filter (fun r => isin_cluster (cluster r) (selected_clusters ui df))
              (rows df))
  else df.

Definition income_options (df : DataFrame) : list string :=
  map str (unique label_eqb (drop_missing (map income_group (rows df)))).

Definition selected_income (ui : Sidebar) (df : DataFrame) : list string :=
  let options := income_options df in
  multiselect (pick_income ui) options options.

(** Lines 32-35; [df] is the frame line 30 left. *)
Definition filter_income (ui : Sidebar) (df : DataFrame) : DataFrame :=
  if has_income_group df then
    set_rows df
      (filter (fun r => isin_str (astype_str (income_group r))
                                 (selected_income ui df))
              (rows df))
  else df.

(** [df['visits_gap_scaled']] *)
Definition gaps (df : DataFrame) : list float :=
  map visits_gap_scaled (rows df).

(** Line 37: [int(nan)] raises ValueError. *)
Definition gap_bounds (df : DataFrame) : result (Z * Z) :=
  match series_min (gaps df), series_max (gaps df) with
  | Some lo, Some hi => Ok (py_int lo, py_int hi)
  | _, _ => Raise ValueError
  end.

Definition in_gap_range (gap_range : Z * Z) (r : Row) : bool :=
  ge_int (visits_gap_scaled r) (fst gap_range)
  && le_int (visits_gap_scaled r) (snd gap_range).

(** Line 39. *)
Definition filter_gap (gap_range : Z * Z) (df : DataFrame) : DataFrame :=
  set_rows df (filter (in_gap_range gap_range) (rows df)).

(** The selections in force: none for a column that does not exist. *)
Definition active_clusters (ui : Sidebar) (df : DataFrame)
  : option (list Z) :=
  if has_cluster df then Some (selected_clusters ui df) else None.

Definition active_income (ui : Sidebar) (df : DataFrame)
  : option (list string) :=
  if has_income_group df
  then Some (selected_income ui (filter_cluster ui df))
  else None.

Definition passes_cluster (ui : Sidebar) (df : DataFrame) (r : Row) : bool :=
  match active_clusters ui df with
  | Some sel => isin_cluster (cluster r) sel
  | None => true
  end.

Definition passes_income (ui : Sidebar) (df : DataFrame) (r : Row) : bool :=
  match active_income ui df with
  | Some sel => isin_str (astype_str (income_group r)) sel
  | None => true
  end.

(** The frame that reaches line 37. *)
Definition categorical_view (ui : Sidebar) (df : DataFrame) : DataFrame :=
  filter_income ui (filter_cluster ui df).

(** The range the slider returns. *)
Definition gap_range (ui : Sidebar) (df : DataFrame) : result (Z * Z) :=
  bind (gap_bounds (categorical_view ui df))
       (fun b => slider (pick_gap_range ui) (fst b) (snd b) b).

(** Lines 27-39: the Filtered View. *)
Definition filtered_view (ui : Sidebar) (df : DataFrame) : result DataFrame :=
  bind (gap_range ui df)
       (fun rng => Ok (filter_gap rng (categorical_view ui df))).

End Filters.

(** ** Summary metrics (lines 48-51) *)

Module Summary.
Import Num Frame.

Record Metrics : Type := mkMetrics {
  total_actual_visits : Z;
  total_predicted_visits : Z;
  average_gap : float
}.

Definition metrics (df : DataFrame) : Metrics :=
  {| total_actual_visits :=
       py_int (series_sum (map visit_count (rows df)));
     total_predicted_visits :=
       py_int (series_sum (map huff_predicted_visits_scaled (rows df)));
     average_gap :=
       py_round1 (series_mean (map visits_gap_scaled (rows df))) |}.

End Summary.

(** ** Map, scatter plot, segments, table and CSV export (lines 76-147) *)

Module Segments.
Import Num Frame.

Definition StrongPerformer : string := "Strong Performer".
Definition OpportunityArea : string := "Opportunity Area".
Definition OnTarget : string := "On Target".

(** Lines 118-124, on the row's gap. *)
Definition categorize (gap : float) : string :=
  if gt_int gap 20 then StrongPerformer
  else if lt_int gap (-20) then OpportunityArea
  else OnTarget.

Definition categorize_gap (row : Row) : string :=
  categorize (visits_gap_scaled row).

(** Line 115: the [abs_gap] column. *)
Definition abs_gap (row : Row) : float := fabs (visits_gap_scaled row).

(** *** [sort_values(key, ascending=False)] *)

Section SortValues.
Context {A : Type}.
Variable key : A -> float.

Definition has_key (a : A) : bool := negb (isna (key a)).

(** [a] may stand before [b] in a descending order with NaN last. *)
Definition key_ge (a b : A) : Prop :=
  match key b with
  | None => True
  | Some y => match key a with Some x => (y <= x)%Q | None => False end
  end.

(** The contract of the library call: the rows with a key, permuted
    into descending order, followed by the rows whose key is NaN in
    their given order. *)
Definition sort_values_desc (l l' : list A) : Prop :=
  exists s,
    Permutation (filter has_key l) s
    /\ StronglySorted key_ge s
    /\ l' = s ++ filter (fun a => isna (key a)) l.

Definition key_eqb (k : float) (a : A) : bool :=
  match key a, k with
  | Some x, Some y => Qeq_bool x y
  | None, None => true
  | _, _ => false
  end.

(** An outcome is stable when the rows of each key value stand in the
    order they had before the call. *)
Definition stable_outcome (l l' : list A) : Prop :=
  forall k, filter (key_eqb k) l' = filter (key_eqb k) l.

(** A stable realisation of the call: insertion from the right, a row
    going in front of the rows whose key does not exceed its own. *)
Definition key_geb (a b : A) : bool :=
  match key b with
  | None => true
  | Some y => match key a with Some x => Qle_bool y x | None => false end
  end.

Fixpoint insert_desc (a : A) (l : list A) : list A :=
  match l with
  | [] => [a]
  | b :: t => if key_geb a b then a :: b :: t else b :: insert_desc a t
  end.

Definition stable_sort_desc (l : list A) : list A :=
  fold_right insert_desc [] (filter has_key l)
  ++ filter (fun a => isna (key a)) l.

End SortValues.

(** *** The segmented table *)

Record TableRow : Type := mkTableRow {
  t_index : nat;
  t_location_name : cell;
  t_visit_count : float;
  t_huff_predicted_visits_scaled : float;
  t_visits_gap_scaled : float;
  t_performance_segment : string;
  t_cluster : option Z;
  t_income_group : option label;
  t_latitude : cell;
  t_longitude : cell
}.

Definition table_cols_segmented : list string :=
  ["location_name"; "visit_count"; "huff_predicted_visits_scaled";
   "visits_gap_scaled"; "Performance Segment"; "cluster"; "income_group";
   "latitude"; "longitude"]%string.

(** One row of [highlight_df[table_cols_segmented]], the segment being the
    value [apply(categorize_gap, axis=1)] gave the row. *)
Definition table_row (row : Row) : TableRow :=
  {| t_index := index row;
     t_location_name := location_name row;
     t_visit_count := visit_count row;
     t_huff_predicted_visits_scaled := huff_predicted_visits_scaled row;
     t_visits_gap_scaled := visits_gap_scaled row;
     t_performance_segment := categorize_gap row;
     t_cluster := cluster row;
     t_income_group := income_group row;
     t_latitude := latitude row;
     t_longitude := longitude row |}.

(** [highlight_df[table_cols_segmented]]: KeyError when an optional column
    does not exist. *)
Definition select_table_cols (df : DataFrame) (highlight : list Row)
  : result (list TableRow) :=
  if has_cluster df && has_income_group df
  then Ok (map table_row highlight)
  else Raise KeyError.

(** A value in a CSV record. *)
Inductive datum : Type :=
| DIndex (n : nat)
| DCell (c : cell)
| DFloat (x : float)
| DText (s : string)
| DCluster (c : option Z)
| DIncome (g : option label).

Definition fields (r : TableRow) : list datum :=
  [DCell (t_location_name r); DFloat (t_visit_count r);
   DFloat (t_huff_predicted_visits_scaled r);
   DFloat (t_visits_gap_scaled r); DText (t_performance_segment r);
   DCluster (t_cluster r); DIncome (t_income_group r);
   DCell (t_latitude r); DCell (t_longitude r)].

Record Csv : Type := mkCsv {
  csv_header : list string;
  csv_records : list (list datum)
}.

(** [DataFrame.to_csv(index=...)]: with [index=True] the index label
    leads every record, under an empty column name. *)
Definition to_csv (with_index : bool) (t : list TableRow) : Csv :=
  {| csv_header :=
       (if with_index then [""%string] else []) ++ table_cols_segmented;
     csv_records :=
       map (fun r =>
              (if with_index then [DIndex (t_index r)] else []) ++ fields r)
           t |}.

(** *** The map and the scatter plot, which run before the table *)

Definition is_text (c : cell) : bool :=
  match c with CText _ => true | _ => false end.

Definition cell_number (c : cell) : float :=
  match c with CNum q => Some q | _ => None end.

(** [df[col].mean()] on a column that [load_data] did not coerce: a text
    cell makes the column one of objects, whose mean raises TypeError;
    otherwise the mean skips the empty cells. *)
Definition column_mean (l : list cell) : result float :=
  if existsb is_text l then Raise TypeError
  else Ok (series_mean (map cell_number l)).

(** [folium.Map(location=[lat, lon])]: a NaN coordinate is refused with
    ValueError. *)
Definition folium_map (lat lon : float) : result unit :=
  if isna lat || isna lon then Raise ValueError else Ok tt.

(** Lines 79-94 on one row: [int(row['visit_count'])] raises ValueError
    on NaN, and so does the marker on an empty coordinate.  A text
    coordinate never gets here, the mean of line 76 having raised. *)
Definition circle_marker (row : Row) : result unit :=
  if isna (visit_count row) then Raise ValueError
  else if notna (latitude row) && notna (longitude row) then Ok tt
  else Raise ValueError.

Fixpoint for_each {A} (f : A -> result unit) (l : list A) : result unit :=
  match l with
  | [] => Ok tt
  | a :: t => bind (f a) (fun _ => for_each f t)
  end.

(** Lines 76-95. *)
Definition draw_map (df : DataFrame) : result unit :=
  bind (column_mean (map latitude (rows df))) (fun lat =>
  bind (column_mean (map longitude (rows df))) (fun lon =>
  bind (folium_map lat lon) (fun _ =>
  for_each circle_marker (rows df)))).

(** Lines 106-112: [px.scatter(..., color="cluster")] raises ValueError
    when the frame has no cluster column. *)
Definition scatter_plot (df : DataFrame) : result unit :=
  if has_cluster df then Ok tt else Raise ValueError.

(** Lines 76-112: what has to succeed before the table is built. *)
Definition charts (df : DataFrame) : result unit :=
  bind (draw_map df) (fun _ => scatter_plot df).

(** Lines 76-147 on the Filtered View [df]: [highlight] is a value of
    [highlight_df], [shown] the table handed to [st.dataframe] and [csv]
    the data of the download button. *)
Definition rendered (df : DataFrame) (highlight : list Row)
    (shown : list TableRow) (csv : Csv) : Prop :=
  charts df = Ok tt
  /\ sort_values_desc abs_gap (rows df) highlight
  /\ exists t,
       select_table_cols df highlight = Ok t
       /\ sort_values_desc t_visits_gap_scaled t shown
       /\ csv = to_csv false t.

(** The same lines with the stable realisation of both sorts. *)
Definition highlight_stable (df : DataFrame) : list Row :=
  stable_sort_desc abs_gap (rows df).

Definition render_stable (df : DataFrame)
  : result (list TableRow * Csv) :=
  bind (charts df) (fun _ =>
  bind (select_table_cols df (highlight_stable df))
       (fun t => Ok (stable_sort_desc t_visits_gap_scaled t, to_csv false t))).

End Segments.

(** ** The written specification, for comparison *)

Module Written.
Import Num Frame Filters.

(** The default slider bounds as the specification words them: the floor
    of the minimum and the floor of the maximum gap over the whole,
    unfiltered Dataset. *)
Definition floor_bounds_of_dataset (df : DataFrame) : result (Z * Z) :=
  match series_min (gaps df), series_max (gaps df) with
  | Some lo, Some hi => Ok (Qfloor lo, Qfloor hi)
  | _, _ => Raise ValueError
  end.

(** The Filtered View as the specification words it: the rows that pass
    every active filter, each filter being a test on the row alone.  An
    inactive categorical filter is [None]. *)
Definition conjunction (clusters : option (list Z))
    (income : option (list string)) (gap_range : Z * Z) (l : list Row)
  : list Row :=
  filter (fun r =>
            match clusters with
            | Some sel => isin_cluster (cluster r) sel
            | None => true
            end
            && match income with
               | Some sel => isin_str (astype_str (income_group r)) sel
               | None => true
               end
            && in_gap_range gap_range r)
         l.

End Written.

(** ** Sample data *)

Module Samples.
Import Num Frame Filters.

(** A table of three rows: a clean one, one whose visit count is not a
    number, and one whose gap is not a number. *)
Definition sample_raw : RawTable :=
  {| raw_has_cluster := true;
     raw_has_income_group := true;
     raw_rows :=
       [ mkRawRow (CText "A") (CNum 1) (CNum 2) (CText "12") (CNum 8)
                  (CNum 4) (Some 0) (Some (LText "Low"));
         mkRawRow (CText "B") (CNum 1) (CNum 2) (CText "n/a") (CNum 8)
                  (CNum 4) (Some 1) (Some (LText "High"));
         mkRawRow (CText "C") (CNum 1) (CNum 2) (CNum 7) (CNum 8)
                  (CText "?") (Some 1) None ] |}.

(** A store with the given index, visits, prediction, gap and cluster. *)
Definition store (i : nat) (visits predicted : Q) (gap : float)
    (c : Z) : Row :=
  {| index := i;
     location_name := CText "store";
     latitude := CNum 42;
     longitude := CNum (-71);
     visit_count := Some visits;
     huff_predicted_visits_scaled := Some predicted;
     visits_gap_scaled := gap;
     cluster := Some c;
     income_group := Some (LText "Low") |}.

Definition frame (l : list Row) : DataFrame :=
  {| has_cluster := true; has_income_group := true; rows := l |}.

(** Gaps 0 and 100 in cluster 0, gaps 50 and 60 in cluster 1. *)
Definition two_clusters : DataFrame :=
  frame [ store 0 10 10 (Some 0%Q) 0; store 1 150 50 (Some 100%Q) 0;
          store 2 90 40 (Some 50%Q) 1; store 3 80 20 (Some 60%Q) 1 ].

(** Gaps -5.5 and 3. *)
Definition negative_half : DataFrame :=
  frame [ store 0 10 (31 # 2) (Some (-11 # 2)) 0;
          store 1 10 7 (Some 3%Q) 0 ].

(** Gaps 0 and 5.5. *)
Definition positive_half : DataFrame :=
  frame [ store 0 10 10 (Some 0%Q) 0;
          store 1 10 (9 # 2) (Some (11 # 2)) 0 ].

(** The view of the aggregate example: visits 10 and 20, predictions 8
    and 25, gaps 2 and -5. *)
Definition aggregate_example : DataFrame :=
  frame [ store 0 10 8 (Some 2%Q) 0; store 1 20 25 (Some (-5)%Q) 0 ].

(** Gaps 5 and -30. *)
Definition small_and_large : DataFrame :=
  frame [ store 0 10 5 (Some 5%Q) 0; store 1 10 40 (Some (-30)%Q) 0 ].

(** Two stores with the same gap. *)
Definition tied : DataFrame :=
  frame [ store 0 10 5 (Some 5%Q) 0; store 1 20 15 (Some 5%Q) 1 ].

(** Two stores with a number for a gap, one with a missing gap. *)
Definition with_missing_gap : DataFrame :=
  frame [ store 0 10 5 (Some 5%Q) 0; store 1 20 15 None 0;
          store 2 20 12 (Some 8%Q) 0 ].

Definition only_cluster (c : Z) : Sidebar :=
  {| pick_clusters := Some [c]; pick_income := None;
     pick_gap_range := None |}.

Definition no_cluster : Sidebar :=
  {| pick_clusters := Some []; pick_income := None;
     pick_gap_range := None |}.

Definition only_range (lo hi : Z) : Sidebar :=
  {| pick_clusters := None; pick_income := None;
     pick_gap_range := Some (lo, hi) |}.

End Samples.

(** ** Map markers and the bar chart (lines 66-102) *)

Module Charts.
Import Num Frame Segments.

(** Line 66. *)
Definition color_map : list (Z * string) :=
  [(0, "red"); (1, "blue"); (2, "green")]%string.

(** [d.get(key, default)]; a missing value is no key of the table. *)
Fixpoint dict_get (d : list (Z * string)) (key : option Z) (default : string)
  : string :=
  match d, key with
  | [], _ => default
  | _, None => default
  | (k, v) :: t, Some z => if Z.eqb k z then v else dict_get t key default
  end.

(** [row.get("cluster")]: nothing when the column does not exist. *)
Definition row_get_cluster (df : DataFrame) (row : Row) : option Z :=
  if has_cluster df then cluster row else None.

(** Line 90: the colour of a marker. *)
Definition marker_color (df : DataFrame) (row : Row) : string :=
  dict_get color_map (row_get_cluster df row) "gray".

(** Line 99: [df.sort_values("visit_count", ascending=False).head(20)]. *)
Definition top_df (df : DataFrame) (top : list Row) : Prop :=
  exists ranked,
    sort_values_desc visit_count (rows df) ranked
    /\ top = firstn 20 ranked.

(** The same line with the stable realisation of the sort. *)
Definition top_df_stable (df : DataFrame) : list Row :=
  firstn 20 (stable_sort_desc visit_count (rows df)).

End Charts.

(** ** More sample data *)

Module MoreSamples.
Import Num Frame Filters Samples.

(** A store like [store] with the given income group. *)
Definition store_income (i : nat) (gap : float) (c : option Z)
    (g : option label) : Row :=
  {| index := i;
     location_name := CText "store";
     latitude := CNum 42;
     longitude := CNum (-71);
     visit_count := Some 10%Q;
     huff_predicted_visits_scaled := Some 10%Q;
     visits_gap_scaled := gap;
     cluster := c;
     income_group := g |}.

(** A table of six rows: two are dropped by the loader (a visit count that
    is not a number, an empty latitude), one has a gap that is not a
    number and no income group. *)
Definition six_raw_rows : RawTable :=
  {| raw_has_cluster := true;
     raw_has_income_group := true;
     raw_rows :=
       [ mkRawRow (CText "A") (CNum 1) (CNum 2) (CText "12") (CNum 8)
                  (CNum 4) (Some 0) (Some (LText "Low"));
         mkRawRow (CText "B") (CNum 1) (CNum 2) (CText "n/a") (CNum 8)
                  (CNum 4) (Some 1) (Some (LText "High"));
         mkRawRow (CText "C") (CNum 1) (CNum 2) (CNum 7) (CNum 8)
                  (CText "?") (Some 1) None;
         mkRawRow (CText "D") CNull (CNum 2) (CNum 7) (CNum 8)
                  (CNum (-1)) (Some 1) (Some (LText "High"));
         mkRawRow (CText "E") (CNum 1) (CNum 2) (CNum 30) (CNum 21)
                  (CNum 9) (Some 1) (Some (LText "High"));
         mkRawRow (CText "F") (CNum 1) (CNum 2) (CNum 20) (CNum 14)
                  (CNum 6) (Some 0) (Some (LText "Low")) ] |}.

(** One store without a cluster, one without an income group. *)
Definition with_missing_labels : DataFrame :=
  frame [ store_income 0 (Some 1%Q) None (Some (LText "Low"));
          store_income 1 (Some 2%Q) (Some 0) None;
          store_income 2 (Some 3%Q) (Some 1) (Some (LText "High")) ].

(** Clusters 2, 0, 2 and a missing one. *)
Definition unsorted_clusters : DataFrame :=
  frame [ store_income 0 (Some 1%Q) (Some 2) (Some (LText "Low"));
          store_income 1 (Some 2%Q) (Some 0) (Some (LText "Low"));
          store_income 2 (Some 3%Q) (Some 2) (Some (LText "Low"));
          store_income 3 (Some 4%Q) None (Some (LText "Low")) ].

(** Gaps 30, -25 and 0. *)
Definition three_segments : DataFrame :=
  frame [ store 0 10 35 (Some (-25)%Q) 0; store 1 40 10 (Some 30%Q) 0;
          store 2 10 10 (Some 0%Q) 1 ].

(** The frame of [two_clusters] without its income_group column. *)
Definition no_income_column : DataFrame :=
  {| has_cluster := true; has_income_group := false;
     rows := rows two_clusters |}.

(** The frame of [two_clusters] without its cluster column. *)
Definition no_cluster_column : DataFrame :=
  {| has_cluster := false; has_income_group := true;
     rows := rows two_clusters |}.

(** Twenty-two stores with visit counts 1 to 22. *)
Definition many_stores : DataFrame :=
  frame (map (fun n => store n (inject_Z (Z.of_nat (S n))) 0 (Some 0%Q) 0)
             (seq 0 22)).

Definition no_income : Sidebar :=
  {| pick_clusters := None; pick_income := Some [];
     pick_gap_range := None |}.

Definition income_only (s : string) : Sidebar :=
  {| pick_clusters := None; pick_income := Some [s];
     pick_gap_range := None |}.

End MoreSamples.

(** * Properties *)

(** ** Facts about the number model *)

Module NumFacts.
Import Num.

Lemma gt_int_spec : forall x z,
  gt_int x z = true <-> exists q, x = Some q /\ (inject_Z z < q)%Q.
Proof.
  intros [q|] z; simpl.
  - rewrite negb_true_iff, <- not_true_iff_false, Qle_bool_iff. split.
    + intros H. exists q. split; [reflexivity | apply Qnot_le_lt; exact H].
    + intros [q' [E H]]. injection E as <-. apply Qlt_not_le; exact H.
  - split; [discriminate | intros [q [E _]]; discriminate].
Qed.

Lemma lt_int_spec : forall x z,
  lt_int x z = true <-> exists q, x = Some q /\ (q < inject_Z z)%Q.
Proof.
  intros [q|] z; simpl.
  - rewrite negb_true_iff, <- not_true_iff_false, Qle_bool_iff. split.
    + intros H. exists q. split; [reflexivity | apply Qnot_le_lt; exact H].
    + intros [q' [E H]]. injection E as <-. apply Qlt_not_le; exact H.
  - split; [discriminate | intros [q [E _]]; discriminate].
Qed.

Lemma ge_int_spec : forall x z,
  ge_int x z = true <-> exists q, x = Some q /\ (inject_Z z <= q)%Q.
Proof.
  intros [q|] z; simpl.
  - rewrite Qle_bool_iff. split.
    + intros H. exists q. split; [reflexivity | exact H].
    + intros [q' [E H]]. injection E as <-. exact H.
  - split; [discriminate | intros [q [E _]]; discriminate].
Qed.

Lemma le_int_spec : forall x z,
  le_int x z = true <-> exists q, x = Some q /\ (q <= inject_Z z)%Q.
Proof.
  intros [q|] z; simpl.
  - rewrite Qle_bool_iff. split.
    + intros H. exists q. split; [reflexivity | exact H].
    + intros [q' [E H]]. injection E as <-. exact H.
  - split; [discriminate | intros [q [E _]]; discriminate].
Qed.

End NumFacts.

(** ** The segment classifier *)

Module SegmentFacts.
Import Num Frame Segments NumFacts.

Lemma labels_distinct :
  StrongPerformer <> OpportunityArea
  /\ StrongPerformer <> OnTarget
  /\ OpportunityArea <> OnTarget.
Proof. repeat split; discriminate. Qed.

Lemma categorize_cases : forall g,
  (gt_int g 20 = true /\ categorize g = StrongPerformer)
  \/ (gt_int g 20 = false /\ lt_int g (-20) = true
      /\ categorize g = OpportunityArea)
  \/ (gt_int g 20 = false /\ lt_int g (-20) = false
      /\ categorize g = OnTarget).
Proof.
  intros g. unfold categorize.
  destruct (gt_int g 20); [left; auto | right].
  destruct (lt_int g (-20)); [left; auto | right; auto].
Qed.

Lemma gt_lt_exclusive : forall g,
  gt_int g 20 = true -> lt_int g (-20) = true -> False.
Proof.
  intros g H1 H2.
  apply gt_int_spec in H1. apply lt_int_spec in H2.
  destruct H1 as [q [E1 H1]], H2 as [q' [E2 H2]].
  rewrite E1 in E2. injection E2 as <-.
  assert (inject_Z (-20) < inject_Z 20)%Q by reflexivity.
  lra.
Qed.

(** C5. Every row gets exactly one of the three labels, by the fixed
    thresholds: Strong Performer exactly when the gap is a number above
    20, Opportunity Area exactly when it is a number below -20, On Target
    in every other case, the values 20 and -20 included; 20.01 is a
    Strong Performer and -20.01 an Opportunity Area. *)
Theorem categorize_gap_threshold_rule : forall row : Row,
  In (categorize_gap row) [StrongPerformer; OnTarget; OpportunityArea]
  /\ (categorize_gap row = StrongPerformer
      <-> exists q, visits_gap_scaled row = Some q /\ (20 < q)%Q)
  /\ (categorize_gap row = OpportunityArea
      <-> exists q, visits_gap_scaled row = Some q /\ (q < -20)%Q)
  /\ (categorize_gap row = OnTarget
      <-> ~ exists q, visits_gap_scaled row = Some q
                      /\ (20 < q \/ q < -20)%Q)
  /\ categorize (Some 20%Q) = OnTarget
  /\ categorize (Some (2001 # 100)) = StrongPerformer
  /\ categorize (Some (-20)%Q) = OnTarget
  /\ categorize (Some (-2001 # 100)) = OpportunityArea.
Proof.
  intros row. unfold categorize_gap.
  pose proof labels_distinct as [D1 [D2 D3]].
  pose proof (gt_int_spec (visits_gap_scaled row) 20) as G.
  pose proof (lt_int_spec (visits_gap_scaled row) (-20)) as L.
  pose proof (gt_lt_exclusive (visits_gap_scaled row)) as X.
  destruct (categorize_cases (visits_gap_scaled row))
    as [[Hg E] | [[Hg [Hl E]] | [Hg [Hl E]]]]; rewrite E.
  - split; [simpl; auto |].
    split; [split; [intros _; apply G; exact Hg | reflexivity] |].
    split; [split; [intros C; congruence |] |].
    { intros H. apply L in H. exfalso. apply X; assumption. }
    split; [split; [intros C; congruence |] |].
    { intros H. exfalso. apply H. apply G in Hg.
      destruct Hg as [q [Eq Hq]]. exists q. split; [exact Eq | left; exact Hq]. }
    repeat split; reflexivity.
  - split; [simpl; auto |].
    split; [split; [intros C; congruence |] |].
    { intros H. apply G in H. congruence. }
    split; [split; [intros _; apply L; exact Hl | reflexivity] |].
    split; [split; [intros C; congruence |] |].
    { intros H. exfalso. apply H. apply L in Hl.
      destruct Hl as [q [Eq Hq]]. exists q. split; [exact Eq | right; exact Hq]. }
    repeat split; reflexivity.
  - split; [simpl; auto |].
    split; [split; [intros C; congruence |] |].
    { intros H. apply G in H. congruence. }
    split; [split; [intros C; congruence |] |].
    { intros H. apply L in H. congruence. }
    split; [split; [| reflexivity] |].
    { intros _ [q [Eq [Hq | Hq]]].
      - assert (gt_int (visits_gap_scaled row) 20 = true)
          by (apply G; exists q; auto). congruence.
      - assert (lt_int (visits_gap_scaled row) (-20) = true)
          by (apply L; exists q; auto). congruence. }
    repeat split; reflexivity.
Qed.

End SegmentFacts.

(** ** Lists *)

Module ListFacts.

Lemma filter_split_perm : forall {A} (f : A -> bool) (l : list A),
  Permutation l (filter f l ++ filter (fun a => negb (f a)) l).
Proof.
  intros A f l. induction l as [| a l IH]; simpl.
  - constructor.
  - destruct (f a); simpl.
    + constructor. exact IH.
    + apply Permutation_cons_app. exact IH.
Qed.

Lemma filter_filter : forall {A} (f g : A -> bool) (l : list A),
  filter f (filter g l) = filter (fun a => g a && f a) l.
Proof.
  intros A f g l. induction l as [| a l IH]; simpl; [reflexivity |].
  destruct (g a); simpl; [destruct (f a) |]; rewrite IH; reflexivity.
Qed.

Lemma filter_all : forall {A} (f : A -> bool) (l : list A),
  Forall (fun a => f a = true) l -> filter f l = l.
Proof.
  intros A f l H. induction H as [| a l Ha _ IH]; simpl; [reflexivity |].
  rewrite Ha, IH. reflexivity.
Qed.

Lemma filter_none : forall {A} (f : A -> bool) (l : list A),
  Forall (fun a => f a = false) l -> filter f l = [].
Proof.
  intros A f l H. induction H as [| a l Ha _ IH]; simpl; [reflexivity |].
  rewrite Ha, IH. reflexivity.
Qed.

Lemma In_enumerate : forall {A} (l : list A) (s i : nat) (x : A),
  In (i, x) (combine (seq s (List.length l)) l)
  <-> (s <= i)%nat /\ nth_error l (i - s) = Some x.
Proof.
  intros A l. induction l as [| a l IH]; intros s i x; simpl.
  - split; [tauto |]. intros [_ H]. destruct (i - s)%nat; discriminate.
  - rewrite IH. split.
    + intros [E | [Hle Hn]].
      * injection E as <- <-. split; [lia |].
        replace (s - s)%nat with 0%nat by lia. reflexivity.
      * split; [lia |].
        replace (i - s)%nat with (S (i - S s)) by lia. exact Hn.
    + intros [Hle Hn]. destruct (Nat.eq_dec i s) as [-> | Hne].
      * left. replace (s - s)%nat with 0%nat in Hn by lia.
        simpl in Hn. injection Hn as <-. reflexivity.
      * right. split; [lia |].
        replace (i - s)%nat with (S (i - S s)) in Hn by lia. exact Hn.
Qed.

End ListFacts.

(** ** The loader *)

Module LoaderFacts.
Import Num Frame Loader ListFacts Samples MoreSamples.

Lemma required_present_spec : forall r,
  required_present r = true
  <-> latitude r <> CNull /\ longitude r <> CNull
      /\ visit_count r <> None
      /\ huff_predicted_visits_scaled r <> None.
Proof.
  intros r. unfold required_present.
  rewrite !andb_true_iff.
  destruct (latitude r), (longitude r), (visit_count r),
    (huff_predicted_visits_scaled r); simpl;
    split; intros H; try tauto; try (repeat split; discriminate);
    try (destruct H as [[[? ?] ?] ?]; discriminate).
Qed.

Lemma In_load_data : forall parse tbl r,
  In r (rows (load_data parse tbl))
  <-> exists i raw,
        nth_error (raw_rows tbl) i = Some raw
        /\ r = coerce parse i raw
        /\ required_present r = true.
Proof.
  intros parse tbl r. unfold load_data, read_excel. simpl.
  rewrite filter_In, in_map_iff. split.
  - intros [[[i raw] [E Hin]] Hp]. simpl in E.
    apply In_enumerate in Hin. destruct Hin as [_ Hn].
    rewrite Nat.sub_0_r in Hn. exists i, raw. auto.
  - intros [i [raw [Hn [E Hp]]]]. split; [| exact Hp].
    exists (i, raw). split; [symmetry; exact E |].
    apply In_enumerate. rewrite Nat.sub_0_r. split; [lia | exact Hn].
Qed.

Lemma coerce_fields : forall parse i raw r,
  r = coerce parse i raw
  <-> index r = i
      /\ location_name r = raw_location_name raw
      /\ latitude r = raw_latitude raw
      /\ longitude r = raw_longitude raw
      /\ visit_count r = to_numeric parse (raw_visit_count raw)
      /\ huff_predicted_visits_scaled r
         = to_numeric parse (raw_huff_predicted_visits_scaled raw)
      /\ visits_gap_scaled r = to_numeric parse (raw_visits_gap_scaled raw)
      /\ cluster r = raw_cluster raw
      /\ income_group r = raw_income_group raw.
Proof.
  intros parse i raw r. split.
  - intros ->. repeat split.
  - intros [H1 [H2 [H3 [H4 [H5 [H6 [H7 [H8 H9]]]]]]]].
    destruct r. simpl in *. subst. reflexivity.
Qed.

Lemma raw_required_present : forall parse i raw,
  required_present (coerce parse i raw) = true
  <-> raw_latitude raw <> CNull /\ raw_longitude raw <> CNull
      /\ to_numeric parse (raw_visit_count raw) <> None
      /\ to_numeric parse (raw_huff_predicted_visits_scaled raw) <> None.
Proof. intros parse i raw. apply required_present_spec. Qed.

(** C9. Whatever the input table, every row of the loaded Dataset has
    latitude, longitude, visit_count and huff_predicted_visits_scaled
    present.  A value of the three coerced columns that is not a number
    becomes the missing value, never an error ([to_numeric] is total, and
    it is missing exactly on an empty cell or a text that does not
    parse).  The loaded rows are exactly the input rows, labelled by their
    position, with the three columns coerced and every other column as it
    was read, whose latitude and longitude cells are not empty and whose
    visit_count and huff_predicted_visits_scaled coerce to numbers: an
    input row is kept when these four fields are present and dropped when
    one of them is missing. *)
Theorem load_data_required_fields :
  forall (parse : string -> option Q) (tbl : RawTable),
    Forall (fun r => latitude r <> CNull /\ longitude r <> CNull
                     /\ visit_count r <> None
                     /\ huff_predicted_visits_scaled r <> None)
           (rows (load_data parse tbl))
    /\ (forall c, to_numeric parse c = None
                  <-> c = CNull \/ exists s, c = CText s /\ parse s = None)
    /\ (forall r,
          In r (rows (load_data parse tbl))
          <-> exists i raw,
                nth_error (raw_rows tbl) i = Some raw
                /\ index r = i
                /\ location_name r = raw_location_name raw
                /\ latitude r = raw_latitude raw
                /\ longitude r = raw_longitude raw
                /\ visit_count r = to_numeric parse (raw_visit_count raw)
                /\ huff_predicted_visits_scaled r
                   = to_numeric parse (raw_huff_predicted_visits_scaled raw)
                /\ visits_gap_scaled r
                   = to_numeric parse (raw_visits_gap_scaled raw)
                /\ cluster r = raw_cluster raw
                /\ income_group r = raw_income_group raw
                /\ raw_latitude raw <> CNull
                /\ raw_longitude raw <> CNull
                /\ to_numeric parse (raw_visit_count raw) <> None
                /\ to_numeric parse (raw_huff_predicted_visits_scaled raw)
                   <> None)
    /\ (forall i raw,
          nth_error (raw_rows tbl) i = Some raw ->
          ((exists r, In r (rows (load_data parse tbl)) /\ index r = i)
           <-> raw_latitude raw <> CNull
               /\ raw_longitude raw <> CNull
               /\ to_numeric parse (raw_visit_count raw) <> None
               /\ to_numeric parse (raw_huff_predicted_visits_scaled raw)
                  <> None)).
Proof.
  intros parse tbl. split; [| split; [| split]].
  - apply Forall_forall. intros r Hr.
    apply In_load_data in Hr. destruct Hr as [i [raw [_ [_ Hp]]]].
    apply required_present_spec. exact Hp.
  - intros [q | s |]; simpl.
    + split; [discriminate |].
      intros [C | [s [C _]]]; discriminate.
    + split.
      * intros H. right. exists s. auto.
      * intros [C | [s' [C H]]]; [discriminate |].
        injection C as <-. exact H.
    + split; auto.
  - intros r. rewrite In_load_data. split.
    + intros [i [raw [Hn [E Hp]]]]. exists i, raw.
      split; [exact Hn |].
      pose proof (proj1 (coerce_fields parse i raw r) E) as F.
      rewrite E in Hp. apply raw_required_present in Hp. tauto.
    + intros [i [raw [Hn F]]]. exists i, raw.
      assert (E : r = coerce parse i raw) by (apply coerce_fields; tauto).
      split; [exact Hn |]. split; [exact E |].
      rewrite E. apply raw_required_present. tauto.
  - intros i raw Hn. split.
    + intros [r [Hr Hi]]. apply In_load_data in Hr.
      destruct Hr as [i' [raw' [Hn' [E Hp]]]].
      rewrite E in Hi, Hp. simpl in Hi. subst i'.
      rewrite Hn in Hn'. injection Hn' as <-.
      apply raw_required_present in Hp. exact Hp.
    + intros Hp. exists (coerce parse i raw). split; [| reflexivity].
      apply In_load_data. exists i, raw.
      split; [exact Hn |]. split; [reflexivity |].
      apply raw_required_present. exact Hp.
Qed.

Example load_sample_raw :
  map (fun r => (index r, visit_count r, visits_gap_scaled r))
      (rows (load_data parse_unsigned sample_raw))
  = [ (0%nat, Some (inject_Z 12), Some 4%Q); (2%nat, Some 7%Q, None) ].
Proof. reflexivity. Qed.

Lemma load_data_required_fields_witness :
  Forall (fun r => latitude r <> CNull /\ longitude r <> CNull
                   /\ visit_count r <> None
                   /\ huff_predicted_visits_scaled r <> None)
         (rows (load_data parse_unsigned sample_raw))
  /\ (exists r, In r (rows (load_data parse_unsigned sample_raw))
                /\ index r = 2%nat)
  /\ ~ (exists r, In r (rows (load_data parse_unsigned six_raw_rows))
                  /\ index r = 3%nat).
Proof.
  destruct (load_data_required_fields parse_unsigned sample_raw)
    as [F [_ [_ K]]].
  destruct (load_data_required_fields parse_unsigned six_raw_rows)
    as [_ [_ [_ D]]].
  split; [exact F |]. split.
  - apply (K 2%nat _ eq_refl). repeat split; discriminate.
  - intros C. apply (D 3%nat _ eq_refl) in C.
    destruct C as [C _]. apply C. reflexivity.
Defined.

End LoaderFacts.

(** ** Minimum, maximum and [int()] *)

Module SeriesFacts.
Import Num.

Lemma py_int_floor : forall q, (0 <= q)%Q -> py_int q = Qfloor q.
Proof.
  intros [n d] H. unfold py_int, Qfloor. simpl.
  unfold Qle in H. simpl in H.
  apply Z.quot_div_nonneg; lia.
Qed.

Lemma py_int_ceiling : forall q, (q <= 0)%Q -> py_int q = Qceiling q.
Proof.
  intros [n d] H. unfold py_int, Qceiling, Qfloor. simpl.
  unfold Qle in H. simpl in H.
  replace n with (- - n) at 1 by lia.
  rewrite Z.quot_opp_l by lia.
  f_equal. apply Z.quot_div_nonneg; lia.
Qed.

Lemma py_int_inject : forall q z, (q == inject_Z z)%Q -> py_int q = z.
Proof.
  intros [n d] z H. unfold py_int. simpl.
  unfold Qeq in H. simpl in H.
  assert (E : n = z * Zpos d) by lia.
  rewrite E. apply Z.quot_mul. lia.
Qed.

Lemma qmin_cases : forall q a,
  (qmin q a <= q)%Q /\ (qmin q a <= a)%Q /\ (qmin q a = q \/ qmin q a = a).
Proof.
  intros q a. unfold qmin. destruct (Qle_bool q a) eqn:E.
  - apply Qle_bool_iff in E. repeat split; auto; lra.
  - assert (~ (q <= a)%Q) by (rewrite <- Qle_bool_iff; congruence).
    repeat split; auto; lra.
Qed.

Lemma qmax_cases : forall q a,
  (q <= qmax q a)%Q /\ (a <= qmax q a)%Q /\ (qmax q a = q \/ qmax q a = a).
Proof.
  intros q a. unfold qmax. destruct (Qle_bool q a) eqn:E.
  - apply Qle_bool_iff in E. repeat split; auto; lra.
  - assert (~ (q <= a)%Q) by (rewrite <- Qle_bool_iff; congruence).
    repeat split; auto; lra.
Qed.

Lemma fold_qmin_spec : forall t q,
  In (fold_left qmin t q) (q :: t)
  /\ Forall (fun x => (fold_left qmin t q <= x)%Q) (q :: t).
Proof.
  induction t as [| a t IH]; intros q; simpl.
  - split; [auto |]. constructor; [apply Qle_refl | constructor].
  - destruct (IH (qmin q a)) as [Hin Hall].
    inversion Hall as [| ? ? Hm Ht]; subst.
    destruct (qmin_cases q a) as [H1 [H2 H3]].
    split.
    + destruct Hin as [E | Hin]; [| auto].
      rewrite <- E. destruct H3 as [-> | ->]; auto.
    + constructor; [lra |]. constructor; [lra | exact Ht].
Qed.

Lemma fold_qmax_spec : forall t q,
  In (fold_left qmax t q) (q :: t)
  /\ Forall (fun x => (x <= fold_left qmax t q)%Q) (q :: t).
Proof.
  induction t as [| a t IH]; intros q; simpl.
  - split; [auto |]. constructor; [apply Qle_refl | constructor].
  - destruct (IH (qmax q a)) as [Hin Hall].
    inversion Hall as [| ? ? Hm Ht]; subst.
    destruct (qmax_cases q a) as [H1 [H2 H3]].
    split.
    + destruct Hin as [E | Hin]; [| auto].
      rewrite <- E. destruct H3 as [-> | ->]; auto.
    + constructor; [lra |]. constructor; [lra | exact Ht].
Qed.

Lemma dropna_In : forall l q, In q (dropna l) <-> In (Some q) l.
Proof.
  induction l as [| [a |] l IH]; intros q; simpl.
  - tauto.
  - rewrite IH. split; intros [E | H]; auto.
    + left. congruence.
    + left. congruence.
  - rewrite IH. split; [auto |]. intros [E | H]; [discriminate | exact H].
Qed.

Lemma series_min_spec : forall l m,
  series_min l = Some m ->
  In (Some m) l /\ forall q, In (Some q) l -> (m <= q)%Q.
Proof.
  intros l m. unfold series_min.
  destruct (dropna l) as [| q t] eqn:E; [discriminate |].
  intros H. injection H as <-.
  destruct (fold_qmin_spec t q) as [Hin Hall].
  rewrite <- E in Hin, Hall. split.
  - apply dropna_In. exact Hin.
  - intros x Hx. apply dropna_In in Hx.
    rewrite Forall_forall in Hall. apply Hall. exact Hx.
Qed.

Lemma series_max_spec : forall l m,
  series_max l = Some m ->
  In (Some m) l /\ forall q, In (Some q) l -> (q <= m)%Q.
Proof.
  intros l m. unfold series_max.
  destruct (dropna l) as [| q t] eqn:E; [discriminate |].
  intros H. injection H as <-.
  destruct (fold_qmax_spec t q) as [Hin Hall].
  rewrite <- E in Hin, Hall. split.
  - apply dropna_In. exact Hin.
  - intros x Hx. apply dropna_In in Hx.
    rewrite Forall_forall in Hall. apply Hall. exact Hx.
Qed.

Lemma series_min_nan : forall l,
  series_min l = None <-> dropna l = [].
Proof.
  intros l. unfold series_min. destruct (dropna l); split;
    intros H; try reflexivity; discriminate.
Qed.

Lemma series_max_nan : forall l,
  series_max l = None <-> dropna l = [].
Proof.
  intros l. unfold series_max. destruct (dropna l); split;
    intros H; try reflexivity; discriminate.
Qed.

End SeriesFacts.

(** ** The slider bounds and the range filter *)

Module BoundsFacts.
Import Num Frame Filters NumFacts SeriesFacts ListFacts Samples.

Lemma gap_bounds_spec : forall df lo hi,
  gap_bounds df = Ok (lo, hi)
  <-> exists mn mx,
        series_min (gaps df) = Some mn /\ series_max (gaps df) = Some mx
        /\ lo = py_int mn /\ hi = py_int mx.
Proof.
  intros df lo hi. unfold gap_bounds.
  destruct (series_min (gaps df)) as [mn |].
  - destruct (series_max (gaps df)) as [mx |].
    + split.
      * intros H. injection H as <- <-. exists mn, mx. auto.
      * intros [a [b [Ha [Hb [-> ->]]]]].
        injection Ha as <-. injection Hb as <-. reflexivity.
    + split; [discriminate |].
      intros [a [b [_ [Hb _]]]]. discriminate.
  - split; [discriminate |].
    intros [a [b [Ha _]]]. discriminate.
Qed.

Lemma gap_bounds_no_rows : forall df,
  rows df = [] -> gap_bounds df = Raise ValueError.
Proof. intros df H. unfold gap_bounds, gaps. rewrite H. reflexivity. Qed.

Lemma in_gap_range_spec : forall rng r,
  in_gap_range rng r = true
  <-> exists g, visits_gap_scaled r = Some g
                /\ (inject_Z (fst rng) <= g)%Q /\ (g <= inject_Z (snd rng))%Q.
Proof.
  intros rng r. unfold in_gap_range.
  rewrite andb_true_iff, ge_int_spec, le_int_spec. split.
  - intros [[g [E H]] [g' [E' H']]]. rewrite E in E'. injection E' as <-.
    exists g. auto.
  - intros [g [E [H H']]]. split; exists g; auto.
Qed.

(** C7, as the code has it. The integer bounds of the gap slider are the
    minimum and the maximum gap of the frame, each cut by [int()], that
    is truncated toward zero: the floor for a value that is not negative,
    the ceiling for a value that is not positive.  A row passes the range
    filter exactly when its own, uncut gap is a number with
    lo <= gap <= hi. *)
Theorem gap_bounds_truncate_toward_zero : forall df lo hi,
  gap_bounds df = Ok (lo, hi) ->
  exists mn mx,
    (In (Some mn) (gaps df) /\ forall g, In (Some g) (gaps df) -> (mn <= g)%Q)
    /\ (In (Some mx) (gaps df)
        /\ forall g, In (Some g) (gaps df) -> (g <= mx)%Q)
    /\ lo = py_int mn /\ hi = py_int mx
    /\ ((0 <= mn)%Q -> lo = Qfloor mn) /\ ((mn <= 0)%Q -> lo = Qceiling mn)
    /\ ((0 <= mx)%Q -> hi = Qfloor mx) /\ ((mx <= 0)%Q -> hi = Qceiling mx)
    /\ forall rng r,
         in_gap_range rng r = true
         <-> exists g, visits_gap_scaled r = Some g
                       /\ (inject_Z (fst rng) <= g)%Q
                       /\ (g <= inject_Z (snd rng))%Q.
Proof.
  intros df lo hi H. apply gap_bounds_spec in H.
  destruct H as [mn [mx [Hmn [Hmx [-> ->]]]]].
  exists mn, mx.
  split; [apply series_min_spec; exact Hmn |].
  split; [apply series_max_spec; exact Hmx |].
  split; [reflexivity |]. split; [reflexivity |].
  split; [apply py_int_floor |]. split; [apply py_int_ceiling |].
  split; [apply py_int_floor |]. split; [apply py_int_ceiling |].
  apply in_gap_range_spec.
Qed.

Lemma gap_bounds_truncate_toward_zero_witness :
  exists mn mx,
    (In (Some mn) (gaps negative_half)
     /\ forall g, In (Some g) (gaps negative_half) -> (mn <= g)%Q)
    /\ (In (Some mx) (gaps negative_half)
        /\ forall g, In (Some g) (gaps negative_half) -> (g <= mx)%Q)
    /\ (-5) = py_int mn /\ 3 = py_int mx
    /\ ((0 <= mn)%Q -> (-5) = Qfloor mn)
    /\ ((mn <= 0)%Q -> (-5) = Qceiling mn)
    /\ ((0 <= mx)%Q -> 3 = Qfloor mx) /\ ((mx <= 0)%Q -> 3 = Qceiling mx)
    /\ forall rng r,
         in_gap_range rng r = true
         <-> exists g, visits_gap_scaled r = Some g
                       /\ (inject_Z (fst rng) <= g)%Q
                       /\ (g <= inject_Z (snd rng))%Q.
Proof.
  apply (gap_bounds_truncate_toward_zero negative_half (-5) 3).
  reflexivity.
Defined.

(** C7, as stated, fails: with a minimum gap of -5.5 the lower bound is
    -5, not the floor -6. *)
Lemma gap_bounds_not_floor :
  gap_bounds negative_half = Ok (-5, 3)
  /\ Written.floor_bounds_of_dataset negative_half = Ok (-6, 3)
  /\ gap_bounds negative_half <> Written.floor_bounds_of_dataset negative_half.
Proof.
  split; [reflexivity |]. split; [reflexivity |].
  intros C. vm_compute in C. discriminate.
Qed.

End BoundsFacts.

(** ** The filter pipeline *)

Module PipelineFacts.
Import Num Frame Filters NumFacts SeriesFacts ListFacts BoundsFacts Samples.

Lemma set_rows_same : forall df, set_rows df (rows df) = df.
Proof. intros [c i l]. reflexivity. Qed.

Lemma filter_cluster_flags : forall ui df,
  has_cluster (filter_cluster ui df) = has_cluster df
  /\ has_income_group (filter_cluster ui df) = has_income_group df.
Proof.
  intros ui df. unfold filter_cluster.
  destruct (has_cluster df) eqn:E; simpl; auto.
Qed.

Lemma filter_income_flags : forall ui df,
  has_cluster (filter_income ui df) = has_cluster df
  /\ has_income_group (filter_income ui df) = has_income_group df.
Proof.
  intros ui df. unfold filter_income.
  destruct (has_income_group df) eqn:E; simpl; auto.
Qed.

Lemma filter_cluster_rows : forall ui df,
  rows (filter_cluster ui df) = filter (passes_cluster ui df) (rows df).
Proof.
  intros ui df. unfold filter_cluster, passes_cluster, active_clusters.
  destruct (has_cluster df); simpl; [reflexivity |].
  symmetry. apply filter_all. apply Forall_forall. auto.
Qed.

Lemma categorical_view_rows : forall ui df,
  rows (categorical_view ui df)
  = filter (fun r => passes_cluster ui df r && passes_income ui df r)
           (rows df).
Proof.
  intros ui df. unfold categorical_view.
  rewrite <- filter_filter, <- filter_cluster_rows.
  unfold filter_income, passes_income, active_income.
  destruct (filter_cluster_flags ui df) as [_ ->].
  destruct (has_income_group df); simpl; [reflexivity |].
  symmetry. apply filter_all. apply Forall_forall. auto.
Qed.

Lemma categorical_view_flags : forall ui df,
  has_cluster (categorical_view ui df) = has_cluster df
  /\ has_income_group (categorical_view ui df) = has_income_group df.
Proof.
  intros ui df. unfold categorical_view.
  destruct (filter_income_flags ui (filter_cluster ui df)) as [-> ->].
  apply filter_cluster_flags.
Qed.

Lemma gap_range_spec : forall ui df rng,
  gap_range ui df = Ok rng
  <-> exists b, gap_bounds (categorical_view ui df) = Ok b
                /\ fst b < snd b
                /\ rng = match pick_gap_range ui with
                         | Some r => r
                         | None => b
                         end.
Proof.
  intros ui df rng. unfold gap_range, slider.
  destruct (gap_bounds (categorical_view ui df)) as [b | e]; simpl.
  - destruct (Z.ltb_spec (fst b) (snd b)) as [L | L].
    + split.
      * intros H. injection H as <-. exists b. auto.
      * intros [b' [E [_ ->]]]. injection E as <-. reflexivity.
    + split; [discriminate |].
      intros [b' [E [L' _]]]. injection E as <-. lia.
  - split; [discriminate |]. intros [b [E _]]. discriminate.
Qed.

Lemma filtered_view_spec : forall ui df view,
  filtered_view ui df = Ok view
  <-> exists rng, gap_range ui df = Ok rng
                  /\ view = filter_gap rng (categorical_view ui df).
Proof.
  intros ui df view. unfold filtered_view.
  destruct (gap_range ui df) as [rng | e]; simpl.
  - split.
    + intros H. injection H as <-. exists rng. auto.
    + intros [rng' [E ->]]. injection E as <-. reflexivity.
  - split; [discriminate |]. intros [rng [E _]]. discriminate.
Qed.

(** C3, as the code has it. The default bounds of the gap slider are
    taken from the frame that the cluster and income-group filters have
    already narrowed: they are [int()] of the least and of the greatest
    gap among the rows that pass those two filters. *)
Theorem default_bounds_of_categorical_view : forall ui df lo hi,
  pick_gap_range ui = None ->
  gap_range ui df = Ok (lo, hi) ->
  exists mn mx,
    rows (categorical_view ui df)
    = filter (fun r => passes_cluster ui df r && passes_income ui df r)
             (rows df)
    /\ (In (Some mn) (gaps (categorical_view ui df))
        /\ forall g, In (Some g) (gaps (categorical_view ui df))
                     -> (mn <= g)%Q)
    /\ (In (Some mx) (gaps (categorical_view ui df))
        /\ forall g, In (Some g) (gaps (categorical_view ui df))
                     -> (g <= mx)%Q)
    /\ lo = py_int mn /\ hi = py_int mx.
Proof.
  intros ui df lo hi Hpick H.
  apply gap_range_spec in H. destruct H as [[lo' hi'] [Hb [_ E]]].
  rewrite Hpick in E. injection E as -> ->.
  apply gap_bounds_spec in Hb.
  destruct Hb as [mn [mx [Hmn [Hmx [-> ->]]]]].
  exists mn, mx.
  split; [apply categorical_view_rows |].
  split; [apply series_min_spec; exact Hmn |].
  split; [apply series_max_spec; exact Hmx |].
  split; reflexivity.
Qed.

Lemma default_bounds_of_categorical_view_witness :
  exists mn mx,
    rows (categorical_view (only_cluster 1) two_clusters)
    = filter (fun r => passes_cluster (only_cluster 1) two_clusters r
                       && passes_income (only_cluster 1) two_clusters r)
             (rows two_clusters)
    /\ (In (Some mn) (gaps (categorical_view (only_cluster 1) two_clusters))
        /\ forall g,
             In (Some g) (gaps (categorical_view (only_cluster 1) two_clusters))
             -> (mn <= g)%Q)
    /\ (In (Some mx) (gaps (categorical_view (only_cluster 1) two_clusters))
        /\ forall g,
             In (Some g) (gaps (categorical_view (only_cluster 1) two_clusters))
             -> (g <= mx)%Q)
    /\ 50 = py_int mn /\ 60 = py_int mx.
Proof.
  apply (default_bounds_of_categorical_view (only_cluster 1) two_clusters
           50 60); reflexivity.
Defined.

(** C3, as stated, fails: the whole Dataset has gaps from 0 to 100, and
    once cluster 1 alone is selected the default bounds are 50 and 60. *)
Lemma default_bounds_shrink_with_cluster_filter :
  Written.floor_bounds_of_dataset two_clusters = Ok (0, 100)
  /\ gap_range untouched two_clusters = Ok (0, 100)
  /\ gap_range (only_cluster 1) two_clusters = Ok (50, 60)
  /\ gap_range (only_cluster 1) two_clusters
     <> Written.floor_bounds_of_dataset two_clusters
  /\ gap_range (only_cluster 1) two_clusters
     <> gap_range untouched two_clusters.
Proof.
  split; [reflexivity |]. split; [reflexivity |]. split; [reflexivity |].
  split; intros C; vm_compute in C; discriminate.
Qed.

End PipelineFacts.

(** ** The Filtered View as a conjunction of row tests *)

Module ConjunctionFacts.
Import Num Frame Filters NumFacts SeriesFacts ListFacts BoundsFacts.
Import PipelineFacts Samples.

Lemma In_drop_missing : forall {A} (l : list (option A)) (a : A),
  In a (drop_missing l) <-> In (Some a) l.
Proof.
  intros A l a. induction l as [| [x |] l IH]; simpl.
  - tauto.
  - rewrite IH. split; intros [E | H]; auto; left; congruence.
  - rewrite IH. split; [auto |]. intros [E | H]; [discriminate | exact H].
Qed.

Lemma In_unique : forall {A} (eqb : A -> A -> bool) (l : list A) (a : A),
  (forall x y, eqb x y = true <-> x = y) ->
  In a (unique eqb l) <-> In a l.
Proof.
  intros A eqb l a Heq. induction l as [| x l IH]; simpl; [tauto |].
  rewrite filter_In, IH. split.
  - intros [E | [H _]]; auto.
  - intros [E | H]; [auto |].
    destruct (eqb x a) eqn:Ex.
    + left. apply Heq. exact Ex.
    + right. auto.
Qed.

Lemma In_insert_sorted : forall l x a,
  In a (insert_sorted x l) <-> a = x \/ In a l.
Proof.
  induction l as [| y l IH]; intros x a; simpl.
  - split; intros [E | H]; auto.
  - destruct (Z.leb x y); simpl; [split; intros [E | H]; auto |].
    rewrite IH. split.
    + intros [E | [E | H]]; auto.
    + intros [E | [E | H]]; auto.
Qed.

Lemma In_sorted : forall l a, In a (sorted l) <-> In a l.
Proof.
  induction l as [| x l IH]; intros a; simpl; [tauto |].
  unfold sorted in *. simpl. rewrite In_insert_sorted, IH.
  split; intros [E | H]; auto.
Qed.

Lemma label_eqb_eq : forall a b, label_eqb a b = true <-> a = b.
Proof.
  intros [x | x | s] [y | y | t]; simpl;
    try (split; discriminate).
  - rewrite Z.eqb_eq. split; congruence.
  - rewrite Z.eqb_eq. split; congruence.
  - rewrite String.eqb_eq. split; congruence.
Qed.

Lemma all_clusters_pass : forall df r z,
  In r (rows df) -> cluster r = Some z ->
  isin_cluster (cluster r) (selected_clusters untouched df) = true.
Proof.
  intros df r z Hin Hc. rewrite Hc. simpl.
  apply existsb_exists. exists z. split; [| apply Z.eqb_refl].
  unfold selected_clusters, cluster_options. simpl.
  apply In_sorted. apply In_unique; [apply Z.eqb_eq |].
  apply In_drop_missing. rewrite <- Hc. apply in_map. exact Hin.
Qed.

Lemma all_income_pass : forall df r g,
  In r (rows df) -> income_group r = Some g ->
  isin_str (astype_str (income_group r)) (selected_income untouched df)
  = true.
Proof.
  intros df r g Hin Hg. rewrite Hg. simpl.
  apply existsb_exists. exists (str g). split; [| apply String.eqb_refl].
  unfold selected_income, income_options. simpl.
  apply in_map. apply In_unique; [apply label_eqb_eq |].
  apply In_drop_missing. rewrite <- Hg. apply in_map. exact Hin.
Qed.

Lemma filter_cluster_untouched : forall df,
  (has_cluster df = true -> Forall (fun r => cluster r <> None) (rows df)) ->
  filter_cluster untouched df = df.
Proof.
  intros df H. unfold filter_cluster.
  destruct (has_cluster df); [| reflexivity].
  specialize (H eq_refl).
  rewrite filter_all; [apply set_rows_same |].
  apply Forall_forall. intros r Hin.
  rewrite Forall_forall in H. specialize (H r Hin).
  destruct (cluster r) as [z |] eqn:E; [| congruence].
  rewrite <- E. eapply all_clusters_pass; eauto.
Qed.

Lemma filter_income_untouched : forall df,
  (has_income_group df = true ->
   Forall (fun r => income_group r <> None) (rows df)) ->
  filter_income untouched df = df.
Proof.
  intros df H. unfold filter_income.
  destruct (has_income_group df); [| reflexivity].
  specialize (H eq_refl).
  rewrite filter_all; [apply set_rows_same |].
  apply Forall_forall. intros r Hin.
  rewrite Forall_forall in H. specialize (H r Hin).
  destruct (income_group r) as [g |] eqn:E; [| congruence].
  rewrite <- E. eapply all_income_pass; eauto.
Qed.

Lemma filter_fixed_all : forall {A} (f : A -> bool) (l : list A),
  filter f l = l -> Forall (fun a => f a = true) l.
Proof.
  intros A f l. induction l as [| a l IH]; simpl; intros H; [constructor |].
  destruct (f a) eqn:E.
  - injection H as H. constructor; auto.
  - exfalso. pose proof (filter_length_le f l) as L.
    rewrite H in L. simpl in L. lia.
Qed.

(** C6, as the code has it. The Filtered View is the Dataset restricted,
    in order, to the rows that pass every active filter, each filter a
    test on the row alone.  With every categorical value selected and the
    slider untouched, on a Dataset in which no row lacks a cluster, an
    income group or a gap, the view is the whole Dataset exactly when
    [int()] of the least gap does not exceed it, the greatest gap does not
    exceed its own [int()], and the two bounds differ, the slider refusing
    equal bounds. *)
Theorem filtered_view_conjunction :
  (forall ui df view,
     filtered_view ui df = Ok view ->
     exists rng,
       gap_range ui df = Ok rng
       /\ rows view
          = Written.conjunction (active_clusters ui df) (active_income ui df)
                                rng (rows df)
       /\ has_cluster view = has_cluster df
       /\ has_income_group view = has_income_group df)
  /\ (forall df mn mx,
        Forall (fun r => (has_cluster df = true -> cluster r <> None)
                         /\ (has_income_group df = true
                             -> income_group r <> None)
                         /\ visits_gap_scaled r <> None) (rows df) ->
        series_min (gaps df) = Some mn ->
        series_max (gaps df) = Some mx ->
        (filtered_view untouched df = Ok df
         <-> (inject_Z (py_int mn) <= mn)%Q
             /\ (mx <= inject_Z (py_int mx))%Q
             /\ py_int mn < py_int mx)).
Proof.
  split.
  - intros ui df view H. apply filtered_view_spec in H.
    destruct H as [rng [Hr ->]]. exists rng.
    split; [exact Hr |]. split.
    + unfold filter_gap. simpl. rewrite categorical_view_rows.
      rewrite filter_filter. unfold Written.conjunction.
      apply filter_ext. intros r.
      unfold passes_cluster, passes_income. reflexivity.
    + unfold filter_gap. simpl. apply categorical_view_flags.
  - intros df mn mx Hall Hmn Hmx.
    assert (Hc : categorical_view untouched df = df).
    { unfold categorical_view.
      rewrite filter_cluster_untouched.
      - apply filter_income_untouched. intros Hi.
        eapply Forall_impl; [| exact Hall]. simpl. tauto.
      - intros Hcl. eapply Forall_impl; [| exact Hall]. simpl. tauto. }
    assert (Hbounds : gap_bounds df = Ok (py_int mn, py_int mx)).
    { apply gap_bounds_spec. exists mn, mx. auto. }
    pose proof (series_min_spec _ _ Hmn) as [Imn Lmn].
    pose proof (series_max_spec _ _ Hmx) as [Imx Umx].
    split.
    + intros H. apply filtered_view_spec in H.
      destruct H as [rng [Hr E]]. apply gap_range_spec in Hr.
      destruct Hr as [b [Hb [Hlt ->]]]. rewrite Hc in Hb, E.
      rewrite Hbounds in Hb. injection Hb as <-. simpl in Hlt, E.
      assert (F : Forall (fun r => in_gap_range (py_int mn, py_int mx) r
                                   = true) (rows df)).
      { apply filter_fixed_all. rewrite E at 2. reflexivity. }
      rewrite Forall_forall in F.
      unfold gaps in Imn, Imx. apply in_map_iff in Imn, Imx.
      destruct Imn as [r1 [E1 H1]]. destruct Imx as [r2 [E2 H2]].
      pose proof (proj1 (in_gap_range_spec _ _) (F r1 H1)) as [g1 [G1 [L1 _]]].
      pose proof (proj1 (in_gap_range_spec _ _) (F r2 H2)) as [g2 [G2 [_ U2]]].
      rewrite E1 in G1. injection G1 as <-.
      rewrite E2 in G2. injection G2 as <-.
      simpl in L1, U2. auto.
    + intros [Hlo [Hhi Hlt]].
      unfold filtered_view, gap_range. rewrite Hc, Hbounds. simpl.
      unfold slider. simpl.
      destruct (Z.ltb_spec (py_int mn) (py_int mx)) as [_ | C]; [| lia].
      simpl. f_equal.
      unfold filter_gap. rewrite filter_all; [apply set_rows_same |].
      apply Forall_forall. intros r Hin.
      rewrite Forall_forall in Hall. destruct (Hall r Hin) as [_ [_ Hg]].
      destruct (visits_gap_scaled r) as [g |] eqn:E; [| congruence].
      apply in_gap_range_spec. exists g. split; [exact E |].
      assert (Hing : In (Some g) (gaps df)).
      { unfold gaps. rewrite <- E. apply in_map. exact Hin. }
      specialize (Lmn g Hing). specialize (Umx g Hing).
      simpl. split; lra.
Qed.

Lemma filtered_view_conjunction_witness :
  (exists rng,
     gap_range (only_cluster 1) two_clusters = Ok rng
     /\ rows (filter_gap (50, 60)
                (categorical_view (only_cluster 1) two_clusters))
        = Written.conjunction
            (active_clusters (only_cluster 1) two_clusters)
            (active_income (only_cluster 1) two_clusters)
            rng (rows two_clusters)
     /\ has_cluster (filter_gap (50, 60)
                       (categorical_view (only_cluster 1) two_clusters))
        = has_cluster two_clusters
     /\ has_income_group (filter_gap (50, 60)
                            (categorical_view (only_cluster 1) two_clusters))
        = has_income_group two_clusters)
  /\ filtered_view untouched two_clusters = Ok two_clusters.
Proof.
  split.
  - apply (proj1 filtered_view_conjunction (only_cluster 1) two_clusters).
    reflexivity.
  - apply (proj2 filtered_view_conjunction two_clusters 0%Q 100%Q).
    + repeat constructor; discriminate.
    + reflexivity.
    + reflexivity.
    + repeat split; discriminate.
Defined.

(** C6, as stated, fails: no row of this Dataset lacks a value, every
    categorical value is selected and the slider is at its default
    bounds, yet the store whose gap is 5.5 is filtered out, the default
    upper bound being [int(5.5)] = 5. *)
Lemma default_view_drops_maximum :
  gap_range untouched positive_half = Ok (0, 5)
  /\ (exists view, filtered_view untouched positive_half = Ok view
                   /\ map index (rows view) = [0%nat])
  /\ filtered_view untouched positive_half <> Ok positive_half.
Proof.
  split; [reflexivity |]. split.
  - eexists. split; reflexivity.
  - intros C. vm_compute in C. discriminate.
Qed.

End ConjunctionFacts.

(** ** The summary metrics *)

Module SummaryFacts.
Import Num Frame Filters Summary NumFacts SeriesFacts ListFacts.
Import BoundsFacts PipelineFacts Samples.

(** An empty categorical selection leaves no row, and line 37 then
    raises on [int(nan)]. *)
Lemma empty_selection_raises : forall ui df,
  (has_cluster df = true /\ pick_clusters ui = Some [])
  \/ (has_income_group df = true /\ pick_income ui = Some []) ->
  filtered_view ui df = Raise ValueError.
Proof.
  intros ui df H.
  assert (E : rows (categorical_view ui df) = []).
  { rewrite categorical_view_rows. apply filter_none.
    apply Forall_forall. intros r _.
    unfold passes_cluster, passes_income, active_clusters, active_income,
      selected_clusters, selected_income.
    destruct H as [[Hc Hp] | [Hi Hp]].
    - rewrite Hc, Hp. simpl. destruct (cluster r); reflexivity.
    - rewrite Hi, Hp. simpl. apply andb_false_r. }
  unfold filtered_view, gap_range.
  rewrite (gap_bounds_no_rows _ E). reflexivity.
Qed.

(** C2, as the code has it. On a view without rows both totals are 0 and
    the average gap is NaN, which [round] hands on unchanged: the metric
    receives NaN, no sentinel is put in its place. *)
Theorem metrics_of_empty_view : forall df,
  rows df = [] ->
  total_actual_visits (metrics df) = 0
  /\ total_predicted_visits (metrics df) = 0
  /\ series_mean (gaps df) = None
  /\ average_gap (metrics df) = None.
Proof.
  intros df H. unfold metrics, gaps. rewrite H. simpl.
  repeat split; reflexivity.
Qed.

(** Such a view does reach the metrics: the slider can leave no row. *)
Lemma metrics_of_empty_view_witness :
  filtered_view (only_range 1 4) positive_half = Ok (frame [])
  /\ total_actual_visits (metrics (frame [])) = 0
  /\ total_predicted_visits (metrics (frame [])) = 0
  /\ series_mean (gaps (frame [])) = None
  /\ average_gap (metrics (frame [])) = None.
Proof.
  split; [reflexivity |].
  apply (metrics_of_empty_view (frame [])). reflexivity.
Defined.

(** C2, as stated, fails: with every cluster deselected the pipeline
    raises ValueError instead of producing an empty view. *)
Lemma empty_cluster_selection_raises :
  filtered_view no_cluster two_clusters = Raise ValueError.
Proof. reflexivity. Qed.

End SummaryFacts.

(** ** Totals and the rounded mean *)

Module AggregateFacts.
Import Num Frame Filters Summary NumFacts SeriesFacts Samples.

Lemma round_half_even_near : forall q,
  (Qabs (q - inject_Z (round_half_even q)) <= 1 # 2)%Q.
Proof.
  intros q. unfold round_half_even.
  pose proof (Qfloor_le q) as Hlo. pose proof (Qlt_floor q) as Hhi.
  rewrite inject_Z_plus in Hhi.
  assert (E1 : (inject_Z 1 == 1)%Q) by reflexivity.
  apply Qabs_Qle_condition.
  destruct (Qcompare (q - inject_Z (Qfloor q)) (1 # 2)) eqn:C.
  - apply Qeq_alt in C.
    destruct (Z.even (Qfloor q)); [| rewrite inject_Z_plus]; lra.
  - apply Qlt_alt in C. lra.
  - apply Qgt_alt in C. rewrite inject_Z_plus. lra.
Qed.

Lemma py_round1_near : forall m,
  exists k, py_round1 (Some m) = Some (k # 10)
            /\ (Qabs (m - (k # 10)) <= 1 # 20)%Q.
Proof.
  intros m. exists (round_half_even (m * 10)). split; [reflexivity |].
  pose proof (round_half_even_near (m * 10)) as H.
  set (k := round_half_even (m * 10)) in *.
  apply Qabs_Qle_condition in H. apply Qabs_Qle_condition.
  assert (E : (k # 10 == inject_Z k * (1 # 10))%Q).
  { unfold Qeq, Qmult, inject_Z. simpl. lia. }
  rewrite E. lra.
Qed.


(** The view with visits 10 and 20, predictions 8 and 25 and gaps 2 and
    -5, on which every sum and the mean are exact in float64 too. *)
Example metrics_of_aggregate_example :
  total_actual_visits (metrics aggregate_example) = 30
  /\ total_predicted_visits (metrics aggregate_example) = 33
  /\ average_gap (metrics aggregate_example) = Some (-15 # 10).
Proof. repeat split; reflexivity. Qed.

End AggregateFacts.

(** ** [sort_values]: the contract and its stable realisation *)

Module SortFacts.
Import Num Frame Segments ListFacts.

Section Sorting.
Context {A : Type}.
Variable key : A -> float.

Lemma key_geb_spec : forall a b, key_geb key a b = true <-> key_ge key a b.
Proof.
intros a b. unfold key_geb, key_ge.
destruct (key b) as [y |]; [| tauto].
destruct (key a) as [x |]; [apply Qle_bool_iff |].
split; [discriminate | tauto].
Qed.

Lemma key_ge_trans : forall a b c,
key_ge key a b -> key_ge key b c -> key_ge key a c.
Proof.
intros a b c. unfold key_ge.
destruct (key c) as [z |]; [| tauto].
destruct (key b) as [y |]; [| tauto].
destruct (key a) as [x |]; [| tauto].
intros; lra.
Qed.

Lemma key_ge_total : forall a b,
key_geb key a b = false -> key_ge key b a.
Proof.
intros a b. unfold key_geb, key_ge.
destruct (key b) as [y |]; [| discriminate].
destruct (key a) as [x |]; [| tauto].
intros H. assert (~ (y <= x)%Q) by (rewrite <- Qle_bool_iff; congruence).
lra.
Qed.

Lemma insert_desc_perm : forall a l,
Permutation (a :: l) (insert_desc key a l).
Proof.
intros a l. induction l as [| b l IH]; simpl; [constructor; constructor |].
destruct (key_geb key a b); [apply Permutation_refl |].
eapply perm_trans; [apply perm_swap |]. constructor. exact IH.
Qed.

Lemma insert_desc_sorted : forall a l,
StronglySorted (key_ge key) l ->
StronglySorted (key_ge key) (insert_desc key a l).
Proof.
intros a l H. induction H as [| b l Hs IH Hb]; simpl.
- constructor; constructor.
- destruct (key_geb key a b) eqn:E.
  + apply key_geb_spec in E. constructor.
    * constructor; assumption.
    * constructor; [exact E |].
      eapply Forall_impl; [| exact Hb].
      intros c Hc. eapply key_ge_trans; eassumption.
  + constructor; [exact IH |].
    apply key_ge_total in E.
    eapply Permutation_Forall; [apply insert_desc_perm |].
    constructor; assumption.
Qed.

Lemma fold_insert_perm : forall l,
Permutation l (fold_right (insert_desc key) [] l).
Proof.
induction l as [| a l IH]; simpl; [constructor |].
eapply perm_trans; [| apply insert_desc_perm]. constructor. exact IH.
Qed.

Lemma fold_insert_sorted : forall l,
StronglySorted (key_ge key) (fold_right (insert_desc key) [] l).
Proof.
induction l as [| a l IH]; simpl; [constructor |].
apply insert_desc_sorted. exact IH.
Qed.

Lemma stable_sort_desc_contract : forall l,
sort_values_desc key l (stable_sort_desc key l).
Proof.
intros l. exists (fold_right (insert_desc key) [] (filter (has_key key) l)).
split; [apply fold_insert_perm |].
split; [apply fold_insert_sorted | reflexivity].
Qed.

Lemma sort_values_desc_perm : forall l l',
sort_values_desc key l l' -> Permutation l l'.
Proof.
intros l l' [s [Hp [_ ->]]].
eapply perm_trans; [apply (filter_split_perm (has_key key)) |].
apply Permutation_app; [exact Hp |].
erewrite filter_ext; [apply Permutation_refl |].
intros a. unfold has_key. apply negb_involutive.
Qed.

Lemma sort_values_desc_sorted : forall l l',
sort_values_desc key l l' -> StronglySorted (key_ge key) l'.
Proof.
intros l l' [s [_ [Hs ->]]].
assert (Hn : Forall (fun a => key a = None)
               (filter (fun a => isna (key a)) l)).
{ apply Forall_forall. intros a Ha. apply filter_In in Ha.
  destruct Ha as [_ Ha]. destruct (key a); [discriminate | reflexivity]. }
revert Hn. generalize (filter (fun a => isna (key a)) l). intros n Hn.
induction Hs as [| a s Hs IH Ha]; simpl.
- induction Hn as [| b n Hb Hn IHn]; constructor; [exact IHn |].
  eapply Forall_impl; [| exact Hn].
  intros c Hc. unfold key_ge. rewrite Hc. exact I.
- constructor; [exact IH |].
  apply Forall_app. split; [exact Ha |].
  eapply Forall_impl; [| exact Hn].
  intros c Hc. unfold key_ge. rewrite Hc. exact I.
Qed.

(** Insertion keeps the rows of each key value in their order. *)
Lemma key_eqb_skip : forall k a b,
key_eqb key k a = true -> key_geb key a b = false ->
key_eqb key k b = false.
Proof.
intros k a b. unfold key_eqb, key_geb.
destruct (key b) as [y |]; [| discriminate].
destruct (key a) as [x |]; destruct k as [z |]; try discriminate.
- intros Hk Hg. apply Qeq_bool_iff in Hk.
  destruct (Qeq_bool y z) eqn:E; [| reflexivity].
  apply Qeq_bool_iff in E.
  assert (~ (y <= x)%Q) by (rewrite <- Qle_bool_iff; congruence).
  lra.
- intros _ _. reflexivity.
Qed.

Lemma filter_insert_desc : forall k a l,
filter (key_eqb key k) (insert_desc key a l)
= filter (key_eqb key k) (a :: l).
Proof.
intros k a l. induction l as [| b l IH]; [reflexivity |].
simpl insert_desc. destruct (key_geb key a b) eqn:E; [reflexivity |].
change (filter (key_eqb key k) (b :: insert_desc key a l))
  with (if key_eqb key k b then b :: filter (key_eqb key k) (insert_desc key a l)
        else filter (key_eqb key k) (insert_desc key a l)).
rewrite IH. simpl.
destruct (key_eqb key k a) eqn:Ea; [| reflexivity].
rewrite (key_eqb_skip k a b Ea E). reflexivity.
Qed.

Lemma filter_fold_insert : forall k l,
filter (key_eqb key k) (fold_right (insert_desc key) [] l)
= filter (key_eqb key k) l.
Proof.
intros k l. induction l as [| a l IH]; [reflexivity |].
simpl fold_right. rewrite filter_insert_desc. simpl. rewrite IH.
reflexivity.
Qed.

Lemma stable_sort_desc_stable : forall l,
stable_outcome key l (stable_sort_desc key l).
Proof.
intros l k. unfold stable_sort_desc.
rewrite filter_app, filter_fold_insert, !filter_filter.
destruct k as [q |].
- rewrite (filter_none (fun a => isna (key a) && key_eqb key (Some q) a)).
  + rewrite app_nil_r. apply filter_ext. intros a.
    unfold has_key, key_eqb. destruct (key a); reflexivity.
  + apply Forall_forall. intros a _.
    unfold key_eqb. destruct (key a); reflexivity.
- rewrite (filter_none (fun a => has_key key a && key_eqb key None a)).
  + simpl. apply filter_ext. intros a.
    unfold key_eqb. destruct (key a); reflexivity.
  + apply Forall_forall. intros a _.
    unfold has_key, key_eqb. destruct (key a); reflexivity.
Qed.

End Sorting.

End SortFacts.

(** ** The segmented table and the CSV export *)

Module RenderFacts.
Import Num Frame Filters Segments NumFacts ListFacts SortFacts Samples.

Lemma filter_map_comm : forall {A B} (f : B -> bool) (g : A -> B) (l : list A),
  filter f (map g l) = map g (filter (fun a => f (g a)) l).
Proof.
  intros A B f g l. induction l as [| a l IH]; simpl; [reflexivity |].
  destruct (f (g a)); simpl; rewrite IH; reflexivity.
Qed.

Lemma gap_eq_abs_eq : forall k r,
  key_eqb visits_gap_scaled k r = true ->
  key_eqb abs_gap (fabs k) r = true.
Proof.
  intros k r. unfold key_eqb, abs_gap, fabs.
  destruct (visits_gap_scaled r) as [x |]; destruct k as [y |]; simpl;
    try discriminate; [| reflexivity].
  rewrite !Qeq_bool_iff. intros E. rewrite E. reflexivity.
Qed.

Lemma filter_gap_through_abs : forall k (l : list Row),
  filter (key_eqb visits_gap_scaled k) l
  = filter (key_eqb visits_gap_scaled k) (filter (key_eqb abs_gap (fabs k)) l).
Proof.
  intros k l. rewrite filter_filter. apply filter_ext. intros r.
  destruct (key_eqb visits_gap_scaled k r) eqn:E.
  - rewrite (gap_eq_abs_eq k r E). reflexivity.
  - symmetry. apply andb_false_r.
Qed.

Lemma rendered_table : forall df highlight shown csv,
  rendered df highlight shown csv ->
  sort_values_desc abs_gap (rows df) highlight
  /\ sort_values_desc t_visits_gap_scaled (map table_row highlight) shown
  /\ csv = to_csv false (map table_row highlight).
Proof.
  intros df highlight shown csv [_ [H1 [t [Ht [H2 H3]]]]].
  unfold select_table_cols in Ht.
  destruct (has_cluster df && has_income_group df); [| discriminate].
  injection Ht as <-. auto.
Qed.

Lemma render_stable_rendered : forall df shown csv,
  render_stable df = Ok (shown, csv) ->
  rendered df (highlight_stable df) shown csv.
Proof.
  intros df shown csv H. unfold render_stable in H.
  destruct (charts df) as [[] | e] eqn:C; [| discriminate].
  simpl in H.
  destruct (select_table_cols df (highlight_stable df)) as [t | e] eqn:E;
    [| discriminate].
  simpl in H. injection H as <- <-. split; [exact C |]. split.
  - apply stable_sort_desc_contract.
  - exists t. split; [exact E |].
    split; [apply stable_sort_desc_contract | reflexivity].
Qed.

(** C4, as the code has it. The table shown holds exactly the rows of the
    Filtered View, in descending order of visits_gap_scaled.  Rows of equal
    gap stand in their original order whenever the two calls of
    [sort_values] returned stable outcomes; the calls do not ask for a
    stable sort. *)
Theorem shown_table_sorted_by_gap : forall df highlight shown csv,
  rendered df highlight shown csv ->
  Permutation (map table_row (rows df)) shown
  /\ StronglySorted (key_ge t_visits_gap_scaled) shown
  /\ (stable_outcome abs_gap (rows df) highlight ->
      stable_outcome t_visits_gap_scaled (map table_row highlight) shown ->
      stable_outcome t_visits_gap_scaled (map table_row (rows df)) shown).
Proof.
  intros df highlight shown csv H.
  apply rendered_table in H. destruct H as [H1 [H2 _]].
  split.
  - eapply perm_trans; [| eapply sort_values_desc_perm; exact H2].
    apply Permutation_map. eapply sort_values_desc_perm. exact H1.
  - split; [eapply sort_values_desc_sorted; exact H2 |].
    intros S1 S2 k. rewrite (S2 k), !filter_map_comm. f_equal.
    change (fun a : Row => key_eqb t_visits_gap_scaled k (table_row a))
      with (key_eqb visits_gap_scaled k).
    rewrite (filter_gap_through_abs k highlight).
    rewrite (filter_gap_through_abs k (rows df)).
    rewrite (S1 (fabs k)). reflexivity.
Qed.

Lemma shown_table_sorted_by_gap_witness :
  Permutation (map table_row (rows tied))
              (stable_sort_desc t_visits_gap_scaled
                 (map table_row (highlight_stable tied)))
  /\ StronglySorted (key_ge t_visits_gap_scaled)
       (stable_sort_desc t_visits_gap_scaled
          (map table_row (highlight_stable tied)))
  /\ stable_outcome t_visits_gap_scaled (map table_row (rows tied))
       (stable_sort_desc t_visits_gap_scaled
          (map table_row (highlight_stable tied))).
Proof.
  destruct (shown_table_sorted_by_gap tied (highlight_stable tied)
              (stable_sort_desc t_visits_gap_scaled
                 (map table_row (highlight_stable tied)))
              (to_csv false (map table_row (highlight_stable tied))))
    as [P [S St]].
  - apply render_stable_rendered. reflexivity.
  - split; [exact P |]. split; [exact S |].
    apply St; apply stable_sort_desc_stable.
Defined.

(** C4, as stated, fails: what [sort_values] promises without a stable
    [kind] lets two stores of equal gap come out in either order. *)
Lemma tied_rows_may_swap :
  ~ (forall df highlight shown csv,
       rendered df highlight shown csv ->
       stable_outcome t_visits_gap_scaled (map table_row (rows df)) shown).
Proof.
  intros H.
  pose (r0 := store 0 10 5 (Some 5%Q) 0).
  pose (r1 := store 1 20 15 (Some 5%Q) 1).
  assert (R : rendered tied [r0; r1] [table_row r1; table_row r0]
                (to_csv false (map table_row [r0; r1]))).
  { split; [reflexivity |]. split.
    - exists [r0; r1]. split; [apply Permutation_refl |].
      split; [| reflexivity].
      repeat constructor; unfold key_ge; simpl; apply Qle_refl.
    - exists (map table_row [r0; r1]). split; [reflexivity |].
      split; [| reflexivity].
      exists [table_row r1; table_row r0].
      split; [apply perm_swap |]. split; [| reflexivity].
      repeat constructor; unfold key_ge; simpl; apply Qle_refl. }
  specialize (H _ _ _ _ R (Some 5%Q)).
  vm_compute in H. discriminate H.
Qed.

End RenderFacts.

(** ** The CSV export against the table shown *)

Module ExportFacts.
Import Num Frame Filters Segments NumFacts ListFacts SortFacts RenderFacts.
Import Samples.

Lemma fields_shape : forall r,
  List.length (fields r) = 9%nat /\ forall n, ~ In (DIndex n) (fields r).
Proof.
  intros r. split; [reflexivity |].
  intros n H. simpl in H.
  repeat (destruct H as [H | H]; [discriminate H |]). exact H.
Qed.

(** C1, as the code has it. The CSV has the nine column names for a header
    and one record per row of the table shown, with the same column values
    and without the index label; its records are those of [highlight_df],
    that is in descending order of the absolute gap, while the table shown
    is sorted again by the gap itself: the records are a permutation of
    the rows shown. *)
Theorem csv_export_of_highlight : forall df highlight shown csv,
  rendered df highlight shown csv ->
  csv_header csv = table_cols_segmented
  /\ csv_records csv = map fields (map table_row highlight)
  /\ Forall (fun rec => List.length rec = 9%nat
                        /\ forall n, ~ In (DIndex n) rec) (csv_records csv)
  /\ Permutation (map fields shown) (csv_records csv)
  /\ List.length (csv_records csv) = List.length shown
  /\ Permutation (rows df) highlight
  /\ StronglySorted (key_ge abs_gap) highlight.
Proof.
  intros df highlight shown csv H.
  apply rendered_table in H. destruct H as [H1 [H2 ->]].
  assert (P : Permutation (map fields shown)
                (map fields (map table_row highlight))).
  { apply Permutation_map. apply Permutation_sym.
    eapply sort_values_desc_perm. exact H2. }
  split; [reflexivity |]. split; [reflexivity |]. split.
  { simpl. apply Forall_forall. intros rec Hrec.
    apply in_map_iff in Hrec. destruct Hrec as [r [<- _]].
    apply fields_shape. }
  split; [exact P |]. split.
  { apply Permutation_length in P. rewrite length_map in P.
    simpl. symmetry. exact P. }
  split; [eapply sort_values_desc_perm; exact H1 |].
  eapply sort_values_desc_sorted. exact H1.
Qed.

Lemma csv_export_of_highlight_witness :
  exists shown csv,
    render_stable small_and_large = Ok (shown, csv)
    /\ csv_header csv = table_cols_segmented
    /\ csv_records csv
       = map fields (map table_row (highlight_stable small_and_large))
    /\ Forall (fun rec => List.length rec = 9%nat
                          /\ forall n, ~ In (DIndex n) rec) (csv_records csv)
    /\ Permutation (map fields shown) (csv_records csv)
    /\ List.length (csv_records csv) = List.length shown
    /\ Permutation (rows small_and_large) (highlight_stable small_and_large)
    /\ StronglySorted (key_ge abs_gap) (highlight_stable small_and_large).
Proof.
  eexists. eexists. split; [reflexivity |].
  apply (csv_export_of_highlight small_and_large).
  apply render_stable_rendered. reflexivity.
Defined.

(** C1, as stated, fails: for two stores with gaps 5 and -30 the table
    shows the gap 5 first and the CSV has the gap -30 first. *)
Lemma csv_order_differs_from_table :
  ~ (forall df highlight shown csv,
       rendered df highlight shown csv ->
       csv_records csv = map fields shown).
Proof.
  intros H.
  destruct (render_stable small_and_large) as [[shown csv] | e] eqn:E;
    [| discriminate E].
  specialize (H _ _ _ _ (render_stable_rendered _ _ _ E)).
  vm_compute in E. injection E as <- <-.
  vm_compute in H. discriminate H.
Qed.

Example csv_and_table_of_small_and_large :
  exists shown csv,
    render_stable small_and_large = Ok (shown, csv)
    /\ map t_index shown = [0%nat; 1%nat]
    /\ map (fun rec => nth_error rec 3) (csv_records csv)
       = [Some (DFloat (Some (-30)%Q)); Some (DFloat (Some 5%Q))].
Proof. eexists. eexists. split; [reflexivity |]. split; reflexivity. Qed.

End ExportFacts.

(** ** Rows with a missing gap *)

Module MissingGapFacts.
Import Num Frame Loader Filters Segments NumFacts ListFacts SortFacts.
Import BoundsFacts PipelineFacts LoaderFacts RenderFacts Samples.

Lemma missing_gap_out_of_range : forall rng r,
  visits_gap_scaled r = None -> in_gap_range rng r = false.
Proof. intros rng r H. unfold in_gap_range. rewrite H. reflexivity. Qed.

Lemma filter_gap_present : forall rng df,
  Forall (fun r => visits_gap_scaled r <> None) (rows (filter_gap rng df)).
Proof.
  intros rng df. apply Forall_forall. intros r Hr. simpl in Hr.
  apply filter_In in Hr. destruct Hr as [_ Hr]. intros C.
  rewrite (missing_gap_out_of_range rng r C) in Hr. discriminate.
Qed.

(** C10. A row whose gap is missing fails the range test for every pair of
    bounds, so no row of a Filtered View has a missing gap, and neither has
    a row of the table shown or a record of the CSV; the loader, for its
    part, keeps every row that has its four required fields, whatever its
    gap. *)
Theorem missing_gap_never_in_view :
  (forall rng r, visits_gap_scaled r = None -> in_gap_range rng r = false)
  /\ (forall ui df view,
        filtered_view ui df = Ok view ->
        Forall (fun r => visits_gap_scaled r <> None) (rows view)
        /\ forall highlight shown csv,
             rendered view highlight shown csv ->
             Forall (fun t => t_visits_gap_scaled t <> None) shown
             /\ Forall (fun rec => exists q,
                          nth_error rec 3 = Some (DFloat (Some q)))
                       (csv_records csv))
  /\ (forall parse tbl i raw,
        nth_error (raw_rows tbl) i = Some raw ->
        required_present (coerce parse i raw) = true ->
        In (coerce parse i raw) (rows (load_data parse tbl))).
Proof.
  split; [apply missing_gap_out_of_range |]. split.
  - intros ui df view H. apply filtered_view_spec in H.
    destruct H as [rng [_ ->]].
    pose proof (filter_gap_present rng (categorical_view ui df)) as Hv.
    split; [exact Hv |].
    intros highlight shown csv R. apply rendered_table in R.
    destruct R as [H1 [H2 ->]].
    assert (Hh : Forall (fun r => visits_gap_scaled r <> None) highlight).
    { eapply Permutation_Forall; [| exact Hv].
      eapply sort_values_desc_perm. exact H1. }
    split.
    + eapply Permutation_Forall; [eapply sort_values_desc_perm; exact H2 |].
      apply Forall_map. exact Hh.
    + simpl. apply Forall_map. apply Forall_map.
      eapply Forall_impl; [| exact Hh].
      intros r Hr. simpl.
      destruct (visits_gap_scaled r) as [q |] eqn:E;
        [| exfalso; apply Hr; exact E].
      exists q. reflexivity.
  - intros parse tbl i raw Hn Hp. apply In_load_data.
    exists i, raw. auto.
Qed.

Lemma missing_gap_never_in_view_witness :
  Forall (fun r => visits_gap_scaled r <> None)
         (rows (frame [store 0 10 5 (Some 5%Q) 0;
                       store 2 20 12 (Some 8%Q) 0]))
  /\ In (coerce parse_unsigned 2
           (mkRawRow (CText "C") (CNum 1) (CNum 2) (CNum 7) (CNum 8)
                     (CText "?") (Some 1) None))
        (rows (load_data parse_unsigned sample_raw)).
Proof.
  destruct missing_gap_never_in_view as [_ [V L]]. split.
  - apply (V untouched with_missing_gap). reflexivity.
  - apply L; reflexivity.
Defined.

End MissingGapFacts.

(** * Further properties of the script *)

(** ** When the filters raise, and what the default range leaves out *)

Module RangeFacts.
Import Num Frame Filters NumFacts SeriesFacts ListFacts BoundsFacts.
Import PipelineFacts SummaryFacts Samples MoreSamples.

Lemma empty_selection_raises_witness :
  filtered_view no_income two_clusters = Raise ValueError.
Proof.
  apply empty_selection_raises. right. split; reflexivity.
Defined.



Lemma py_int_nonpos : forall q, (q <= 0)%Q -> py_int q <= 0.
Proof.
  intros q H. rewrite (py_int_ceiling q H). unfold Qceiling.
  assert (0 <= Qfloor (- q)).
  { change 0 with (Qfloor 0). apply Qfloor_resp_le. lra. }
  lia.
Qed.

Lemma py_int_nonneg : forall q, (0 <= q)%Q -> 0 <= py_int q.
Proof.
  intros q H. rewrite (py_int_floor q H).
  change 0 with (Qfloor 0). apply Qfloor_resp_le. exact H.
Qed.

Lemma py_int_mono : forall a b, (a <= b)%Q -> py_int a <= py_int b.
Proof.
  intros a b H.
  destruct (Qlt_le_dec a 0) as [Ha | Ha].
  - destruct (Qlt_le_dec b 0) as [Hb | Hb].
    + rewrite (py_int_ceiling a), (py_int_ceiling b) by lra.
      apply Qceiling_resp_le. exact H.
    + assert (Ha' : (a <= 0)%Q) by lra.
      pose proof (py_int_nonpos a Ha'). pose proof (py_int_nonneg b Hb).
      lia.
  - rewrite (py_int_floor a), (py_int_floor b) by lra.
    apply Qfloor_resp_le. exact H.
Qed.



Example slider_refuses_equal_bounds :
  filtered_view (only_cluster 0) tied = Raise StreamlitAPIException
  /\ filtered_view untouched tied = Raise StreamlitAPIException.
Proof. split; reflexivity. Qed.

(** Whenever line 37 yields bounds for the slider, the lower one does not
    exceed the upper one, on whatever frame and whatever signs the gaps
    have. *)
Theorem gap_bounds_ordered : forall df lo hi,
  gap_bounds df = Ok (lo, hi) -> lo <= hi.
Proof.
  intros df lo hi H. apply gap_bounds_spec in H.
  destruct H as [mn [mx [Hmn [Hmx [-> ->]]]]].
  apply py_int_mono.
  apply series_min_spec in Hmn. apply series_max_spec in Hmx.
  destruct Hmn as [Hin _]. destruct Hmx as [_ Hup].
  apply Hup. exact Hin.
Qed.

Lemma gap_bounds_ordered_witness : -5 <= 3.
Proof.
  apply (gap_bounds_ordered negative_half (-5) 3). reflexivity.
Defined.

(** With the slider untouched, a greatest gap that is positive and not a
    whole number lies above the default upper bound: every row kept has a
    smaller gap, and a row that has the greatest gap is dropped.  The same
    holds at the other end for a least gap that is negative and not a
    whole number. *)
Theorem default_range_hides_fractional_extremes : forall ui df view,
  pick_gap_range ui = None ->
  filtered_view ui df = Ok view ->
  (forall mx,
     series_max (gaps (categorical_view ui df)) = Some mx ->
     (0 < mx)%Q -> (inject_Z (Qfloor mx) < mx)%Q ->
     Forall (fun r => forall g, visits_gap_scaled r = Some g -> (g < mx)%Q)
            (rows view)
     /\ exists r, In r (rows (categorical_view ui df))
                  /\ visits_gap_scaled r = Some mx /\ ~ In r (rows view))
  /\ (forall mn,
        series_min (gaps (categorical_view ui df)) = Some mn ->
        (mn < 0)%Q -> (mn < inject_Z (Qceiling mn))%Q ->
        Forall (fun r => forall g, visits_gap_scaled r = Some g -> (mn < g)%Q)
               (rows view)
        /\ exists r, In r (rows (categorical_view ui df))
                     /\ visits_gap_scaled r = Some mn /\ ~ In r (rows view)).
Proof.
  intros ui df view Hpick H.
  apply filtered_view_spec in H. destruct H as [rng [Hr ->]].
  apply gap_range_spec in Hr. destruct Hr as [[lo hi] [Hb [_ ->]]].
  rewrite Hpick.
  apply gap_bounds_spec in Hb.
  destruct Hb as [mn0 [mx0 [Hmn [Hmx [-> ->]]]]].
  assert (Kept : forall r, In r (rows (filter_gap (py_int mn0, py_int mx0)
                                         (categorical_view ui df))) ->
                 exists g, visits_gap_scaled r = Some g
                           /\ (inject_Z (py_int mn0) <= g)%Q
                           /\ (g <= inject_Z (py_int mx0))%Q).
  { intros r Hin. simpl in Hin. apply filter_In in Hin.
    destruct Hin as [_ Hin]. apply in_gap_range_spec in Hin. exact Hin. }
  split.
  - intros mx E Hpos Hfrac. rewrite Hmx in E. injection E as ->.
    rewrite (py_int_floor mx) in Kept by lra.
    assert (Below : Forall (fun r => forall g, visits_gap_scaled r = Some g
                                               -> (g < mx)%Q)
                      (rows (filter_gap (py_int mn0, Qfloor mx)
                               (categorical_view ui df)))).
    { apply Forall_forall. intros r Hin g Hg.
      destruct (Kept r Hin) as [g' [Hg' [_ Hle]]].
      rewrite Hg in Hg'. injection Hg' as <-. lra. }
    rewrite (py_int_floor mx) by lra. split; [exact Below |].
    apply series_max_spec in Hmx. destruct Hmx as [Hin _].
    unfold gaps in Hin. apply in_map_iff in Hin.
    destruct Hin as [r [Hg Hin]]. exists r.
    split; [exact Hin |]. split; [exact Hg |].
    intros C. rewrite Forall_forall in Below.
    specialize (Below r C mx Hg). lra.
  - intros mn E Hneg Hfrac. rewrite Hmn in E. injection E as ->.
    rewrite (py_int_ceiling mn) in Kept by lra.
    assert (Above : Forall (fun r => forall g, visits_gap_scaled r = Some g
                                               -> (mn < g)%Q)
                      (rows (filter_gap (Qceiling mn, py_int mx0)
                               (categorical_view ui df)))).
    { apply Forall_forall. intros r Hin g Hg.
      destruct (Kept r Hin) as [g' [Hg' [Hle _]]].
      rewrite Hg in Hg'. injection Hg' as <-. lra. }
    rewrite (py_int_ceiling mn) by lra. split; [exact Above |].
    apply series_min_spec in Hmn. destruct Hmn as [Hin _].
    unfold gaps in Hin. apply in_map_iff in Hin.
    destruct Hin as [r [Hg Hin]]. exists r.
    split; [exact Hin |]. split; [exact Hg |].
    intros C. rewrite Forall_forall in Above.
    specialize (Above r C mn Hg). lra.
Qed.

Lemma default_range_hides_fractional_extremes_witness :
  Forall (fun r => forall g, visits_gap_scaled r = Some g -> (g < 11 # 2)%Q)
         (rows (frame [store 0 10 10 (Some 0%Q) 0]))
  /\ exists r, In r (rows (categorical_view untouched positive_half))
               /\ visits_gap_scaled r = Some (11 # 2)
               /\ ~ In r (rows (frame [store 0 10 10 (Some 0%Q) 0])).
Proof.
  destruct (default_range_hides_fractional_extremes untouched positive_half
              (frame [store 0 10 10 (Some 0%Q) 0]) eq_refl eq_refl)
    as [Hmax _].
  apply (Hmax (11 # 2)); reflexivity.
Defined.

End RangeFacts.

(** ** The categorical filters on missing labels *)

Module CategoricalFacts.
Import Num Frame Filters NumFacts SeriesFacts ListFacts BoundsFacts.
Import PipelineFacts ConjunctionFacts Samples MoreSamples.

Lemma isin_cluster_present : forall c sel,
  isin_cluster c sel = true -> c <> None.
Proof. intros [z |] sel H; [discriminate | discriminate H]. Qed.

Lemma view_rows_incl : forall ui df view,
  filtered_view ui df = Ok view ->
  forall r, In r (rows view) -> In r (rows (categorical_view ui df)).
Proof.
  intros ui df view H r Hr. apply filtered_view_spec in H.
  destruct H as [rng [_ ->]]. simpl in Hr.
  apply filter_In in Hr. tauto.
Qed.

(** When the cluster column exists, a row without a cluster passes no
    selection, the default one included: selecting every cluster removes
    exactly the rows whose cluster is missing, and no Filtered View holds
    such a row. *)
Theorem missing_cluster_never_passes : forall ui df,
  has_cluster df = true ->
  rows (filter_cluster untouched df)
  = filter (fun r => match cluster r with Some _ => true | None => false end)
           (rows df)
  /\ Forall (fun r => cluster r <> None) (rows (categorical_view ui df))
  /\ forall view, filtered_view ui df = Ok view ->
                  Forall (fun r => cluster r <> None) (rows view).
Proof.
  intros ui df Hc.
  assert (Cat : Forall (fun r => cluster r <> None)
                  (rows (categorical_view ui df))).
  { apply Forall_forall. intros r Hr.
    rewrite categorical_view_rows in Hr. apply filter_In in Hr.
    destruct Hr as [_ Hr]. apply andb_true_iff in Hr. destruct Hr as [Hr _].
    unfold passes_cluster, active_clusters in Hr. rewrite Hc in Hr.
    eapply isin_cluster_present. exact Hr. }
  split; [| split; [exact Cat |]].
  - unfold filter_cluster. rewrite Hc. simpl.
    apply filter_ext_in. intros r Hin.
    destruct (cluster r) as [z |] eqn:E; [| reflexivity].
    rewrite <- E. eapply all_clusters_pass; eauto.
  - intros view Hv. apply Forall_forall. intros r Hr.
    rewrite Forall_forall in Cat. apply Cat.
    eapply view_rows_incl; eauto.
Qed.

Lemma missing_cluster_never_passes_witness :
  map index (rows (filter_cluster untouched with_missing_labels))
  = [1%nat; 2%nat]
  /\ Forall (fun r => cluster r <> None)
            (rows (categorical_view untouched with_missing_labels)).
Proof.
  destruct (missing_cluster_never_passes untouched with_missing_labels
              eq_refl) as [E [F _]].
  split; [rewrite E; reflexivity | exact F].
Defined.

Lemma NoDup_unique : forall {A} (eqb : A -> A -> bool) (l : list A),
  (forall x y, eqb x y = true <-> x = y) -> NoDup (unique eqb l).
Proof.
  intros A eqb l Heq. induction l as [| x l IH]; simpl; constructor.
  - intros H. apply filter_In in H. destruct H as [_ H].
    assert (E : eqb x x = true) by (apply Heq; reflexivity).
    rewrite E in H. discriminate.
  - apply NoDup_filter. exact IH.
Qed.

Lemma insert_sorted_strict : forall l x,
  StronglySorted Z.lt l -> ~ In x l ->
  StronglySorted Z.lt (insert_sorted x l).
Proof.
  intros l x H. induction H as [| y l Hs IH Hy]; intros Hx; simpl.
  - constructor; constructor.
  - destruct (Z.leb x y) eqn:E.
    + apply Z.leb_le in E.
      assert (x < y) by (assert (x <> y) by (intros ->; apply Hx; left;
                           reflexivity); lia).
      constructor; [constructor; assumption |].
      constructor; [assumption |].
      eapply Forall_impl; [| exact Hy]. intros z Hz. simpl in Hz. lia.
    + apply Z.leb_gt in E. constructor.
      * apply IH. intros C. apply Hx. right. exact C.
      * apply Forall_forall. intros z Hz. apply In_insert_sorted in Hz.
        destruct Hz as [-> | Hz]; [exact E |].
        rewrite Forall_forall in Hy. apply Hy. exact Hz.
Qed.

Lemma sorted_strict : forall l, NoDup l -> StronglySorted Z.lt (sorted l).
Proof.
  intros l H. induction H as [| x l Hx _ IH]; simpl; [constructor |].
  apply insert_sorted_strict; [exact IH |].
  rewrite In_sorted. exact Hx.
Qed.

(** The options of the cluster widget are strictly increasing, hence free
    of repetitions, and they are exactly the clusters that occur in the
    frame; a missing cluster is never offered. *)
Theorem cluster_options_sorted_distinct : forall df,
  StronglySorted Z.lt (cluster_options df)
  /\ forall z, In z (cluster_options df)
               <-> exists r, In r (rows df) /\ cluster r = Some z.
Proof.
  intros df. unfold cluster_options. split.
  - apply sorted_strict. apply NoDup_unique. apply Z.eqb_eq.
  - intros z. rewrite In_sorted, In_unique by apply Z.eqb_eq.
    rewrite In_drop_missing, in_map_iff. split.
    + intros [r [E Hin]]. exists r. auto.
    + intros [r [Hin E]]. exists r. auto.
Qed.

Example cluster_options_of_unsorted_clusters :
  cluster_options unsorted_clusters = [0; 2].
Proof. reflexivity. Qed.

Lemma str_number_not_nan : forall z,
  str (LInt z) <> "nan"%string /\ str (LFloat z) <> "nan"%string.
Proof.
  intros z. simpl. generalize (Z.to_int z). intros i.
  split; destruct i as [d | d]; destruct d; simpl; discriminate.
Qed.

(** A row without an income group is compared as the text 'nan', which no
    option of the widget reads: the workbook reader delivers a cell with
    the text 'nan' as missing, and a number prints its digits.  So when
    the income_group column exists such a row passes no selection made
    from the options, the default one included, and no Filtered View
    holds it. *)
Theorem missing_income_never_passes : forall ui df,
  has_income_group df = true ->
  (forall r s, In r (rows df) -> income_group r = Some (LText s)
               -> s <> "nan"%string) ->
  (forall sel, pick_income ui = Some sel
               -> incl sel (income_options (filter_cluster ui df))) ->
  ~ In "nan"%string (selected_income ui (filter_cluster ui df))
  /\ Forall (fun r => income_group r <> None) (rows (categorical_view ui df))
  /\ forall view, filtered_view ui df = Ok view ->
                  Forall (fun r => income_group r <> None) (rows view).
Proof.
  intros ui df Hi Htext Hsel.
  assert (Opt : ~ In "nan"%string (income_options (filter_cluster ui df))).
  { unfold income_options. intros C. apply in_map_iff in C.
    destruct C as [g [E Hg]].
    apply In_unique in Hg; [| apply label_eqb_eq].
    apply In_drop_missing in Hg. apply in_map_iff in Hg.
    destruct Hg as [r [Er Hr]].
    rewrite filter_cluster_rows in Hr. apply filter_In in Hr.
    destruct Hr as [Hr _].
    destruct g as [z | z | s].
    - destruct (str_number_not_nan z) as [N _]. contradiction.
    - destruct (str_number_not_nan z) as [_ N]. contradiction.
    - simpl in E. subst s. apply (Htext r "nan"%string Hr Er). reflexivity. }
  assert (Sel : ~ In "nan"%string
                  (selected_income ui (filter_cluster ui df))).
  { unfold selected_income, multiselect.
    destruct (pick_income ui) as [sel |] eqn:P; [| exact Opt].
    intros C. apply Opt. apply (Hsel sel eq_refl). exact C. }
  assert (Cat : Forall (fun r => income_group r <> None)
                  (rows (categorical_view ui df))).
  { apply Forall_forall. intros r Hr Hn.
    unfold categorical_view, filter_income in Hr.
    destruct (filter_cluster_flags ui df) as [_ F]. rewrite F, Hi in Hr.
    simpl in Hr. apply filter_In in Hr. destruct Hr as [_ Hr].
    rewrite Hn in Hr. simpl in Hr. unfold isin_str in Hr.
    apply existsb_exists in Hr. destruct Hr as [s [Hs E]].
    apply String.eqb_eq in E. subst s. contradiction. }
  split; [exact Sel |]. split; [exact Cat |].
  intros view Hv. apply Forall_forall. intros r Hr.
  rewrite Forall_forall in Cat. apply Cat.
  eapply view_rows_incl; eauto.
Qed.

Lemma missing_income_never_passes_witness :
  map index (rows (categorical_view untouched with_missing_labels))
  = [2%nat]
  /\ Forall (fun r => income_group r <> None)
            (rows (categorical_view untouched with_missing_labels)).
Proof.
  split; [reflexivity |].
  refine (proj1 (proj2 (missing_income_never_passes untouched
                          with_missing_labels _ _ _))).
  - reflexivity.
  - intros r s Hin E C. subst s. simpl in Hin.
    destruct Hin as [<- | [<- | [<- | []]]]; discriminate E.
  - intros sel C. discriminate C.
Defined.

Lemma set_rows_twice : forall df l l',
  set_rows (set_rows df l) l' = set_rows df l'.
Proof. intros df l l'. reflexivity. Qed.

(** Filtering by a range inside an earlier range gives what the inner
    range alone gives: narrowing the slider only removes rows. *)
Theorem narrower_range_composes : forall df lo hi lo' hi',
  lo' <= lo -> hi <= hi' ->
  filter_gap (lo, hi) (filter_gap (lo', hi') df) = filter_gap (lo, hi) df.
Proof.
  intros df lo hi lo' hi' Hlo Hhi. unfold filter_gap.
  rewrite set_rows_twice. f_equal. simpl rows.
  rewrite filter_filter. apply filter_ext. intros r.
  destruct (in_gap_range (lo, hi) r) eqn:E; [| apply andb_false_r].
  rewrite andb_true_r.
  apply in_gap_range_spec in E. destruct E as [g [Hg [H1 H2]]].
  apply in_gap_range_spec. exists g. simpl in *.
  rewrite Zle_Qle in Hlo, Hhi. repeat split; [exact Hg | lra | lra].
Qed.

Lemma narrower_range_composes_witness :
  filter_gap (40, 60) (filter_gap (0, 100) two_clusters)
  = filter_gap (40, 60) two_clusters.
Proof. apply narrower_range_composes; lia. Defined.

End CategoricalFacts.

(** ** Row order and index labels *)

Module OrderFacts.
Import Num Frame Loader Filters NumFacts ListFacts BoundsFacts.
Import PipelineFacts LoaderFacts CategoricalFacts Samples MoreSamples.

Lemma filter_keeps_order : forall {A} (R : A -> A -> Prop) (f : A -> bool) l,
  StronglySorted R l -> StronglySorted R (filter f l).
Proof.
  intros A R f l H. induction H as [| a l Hs IH Ha]; simpl; [constructor |].
  destruct (f a); [| exact IH].
  constructor; [exact IH |].
  apply Forall_forall. intros b Hb. apply filter_In in Hb.
  rewrite Forall_forall in Ha. apply Ha. tauto.
Qed.

Lemma map_keeps_order : forall {A B} (R : A -> A -> Prop) (S : B -> B -> Prop)
    (g : A -> B) l,
  (forall a b, R a b -> S (g a) (g b)) ->
  StronglySorted R l -> StronglySorted S (map g l).
Proof.
  intros A B R S g l HRS H. induction H as [| a l Hs IH Ha]; simpl;
    constructor; [exact IH |].
  apply Forall_map. eapply Forall_impl; [| exact Ha]. intros b. apply HRS.
Qed.

Lemma enumerate_increasing : forall {A} (l : list A) (s : nat),
  StronglySorted (fun p q => (fst p < fst q)%nat)
                 (combine (seq s (List.length l)) l).
Proof.
  intros A l. induction l as [| a l IH]; intros s; simpl; constructor.
  - apply IH.
  - apply Forall_forall. intros [i x] Hin. apply In_enumerate in Hin.
    simpl. lia.
Qed.

Lemma increasing_NoDup : forall l,
  StronglySorted (fun a b : Row => (index a < index b)%nat) l ->
  NoDup (map index l).
Proof.
  intros l H. induction H as [| a l Hs IH Ha]; simpl; constructor;
    [| exact IH].
  intros C. apply in_map_iff in C. destruct C as [b [E Hb]].
  rewrite Forall_forall in Ha. specialize (Ha b Hb). lia.
Qed.

Lemma view_keeps_order : forall (R : Row -> Row -> Prop) ui df view,
  StronglySorted R (rows df) ->
  filtered_view ui df = Ok view ->
  StronglySorted R (rows view).
Proof.
  intros R ui df view Hs H. apply filtered_view_spec in H.
  destruct H as [rng [_ ->]]. simpl.
  apply filter_keeps_order. rewrite categorical_view_rows.
  apply filter_keeps_order. exact Hs.
Qed.

(** The loader numbers the rows by their position in the file and keeps
    their order, and the filters keep it too: in the loaded Dataset and in
    every Filtered View of it the index labels increase strictly, so no
    two rows share a label, and the row labelled [i] is the coerced row at
    position [i] of the input table. *)
Theorem loaded_index_labels_increase : forall parse tbl,
  StronglySorted (fun a b => (index a < index b)%nat)
                 (rows (load_data parse tbl))
  /\ Forall (fun r => exists raw,
                nth_error (raw_rows tbl) (index r) = Some raw
                /\ r = coerce parse (index r) raw)
            (rows (load_data parse tbl))
  /\ forall ui view,
       filtered_view ui (load_data parse tbl) = Ok view ->
       StronglySorted (fun a b => (index a < index b)%nat) (rows view)
       /\ NoDup (map index (rows view))
       /\ Forall (fun r => exists raw,
                     nth_error (raw_rows tbl) (index r) = Some raw
                     /\ r = coerce parse (index r) raw)
                 (rows view).
Proof.
  intros parse tbl.
  assert (S : StronglySorted (fun a b => (index a < index b)%nat)
                (rows (load_data parse tbl))).
  { unfold load_data, read_excel. simpl. apply filter_keeps_order.
    eapply map_keeps_order; [| apply enumerate_increasing].
    intros [i x] [j y] H. exact H. }
  assert (P : Forall (fun r => exists raw,
                        nth_error (raw_rows tbl) (index r) = Some raw
                        /\ r = coerce parse (index r) raw)
                (rows (load_data parse tbl))).
  { apply Forall_forall. intros r Hr. apply In_load_data in Hr.
    destruct Hr as [i [raw [Hn [-> _]]]]. simpl. exists raw. auto. }
  split; [exact S |]. split; [exact P |].
  intros ui view Hv.
  assert (Sv : StronglySorted (fun a b => (index a < index b)%nat)
                 (rows view)) by (eapply view_keeps_order; eauto).
  split; [exact Sv |]. split; [apply increasing_NoDup; exact Sv |].
  apply Forall_forall. intros r Hr.
  rewrite Forall_forall in P. apply P.
  apply (view_rows_incl _ _ _ Hv) in Hr.
  rewrite categorical_view_rows in Hr. apply filter_In in Hr. tauto.
Qed.

Lemma loaded_index_labels_increase_witness :
  exists view,
    filtered_view untouched (load_data parse_unsigned six_raw_rows) = Ok view
    /\ map index (rows (load_data parse_unsigned six_raw_rows))
       = [0%nat; 2%nat; 4%nat; 5%nat]
    /\ map index (rows view) = [0%nat; 4%nat; 5%nat]
    /\ StronglySorted (fun a b => (index a < index b)%nat) (rows view)
    /\ NoDup (map index (rows view))
    /\ Forall (fun r => exists raw,
                  nth_error (raw_rows six_raw_rows) (index r) = Some raw
                  /\ r = coerce parse_unsigned (index r) raw)
              (rows view).
Proof.
  eexists. split; [reflexivity |]. split; [reflexivity |].
  split; [reflexivity |].
  apply (proj2 (proj2 (loaded_index_labels_increase parse_unsigned
                         six_raw_rows)) untouched).
  reflexivity.
Defined.

End OrderFacts.

(** ** The metrics on a Filtered View *)

Module ViewMetricsFacts.
Import Num Frame Filters Summary NumFacts SeriesFacts ListFacts BoundsFacts.
Import PipelineFacts AggregateFacts MissingGapFacts Samples MoreSamples.




End ViewMetricsFacts.

(** ** The bar chart, the markers and the table on edge cases *)

Module ChartFacts.
Import Num Frame Filters Segments Charts NumFacts ListFacts SortFacts.
Import BoundsFacts PipelineFacts SegmentFacts RenderFacts MissingGapFacts.
Import Samples MoreSamples.

Lemma sorted_app_cross : forall {A} (R : A -> A -> Prop) (l1 l2 : list A),
  StronglySorted R (l1 ++ l2) ->
  Forall (fun a => Forall (R a) l2) l1.
Proof.
  intros A R l1 l2. induction l1 as [| a l1 IH]; simpl; intros H;
    constructor.
  - inversion H as [| ? ? _ Ha]; subst.
    apply Forall_app in Ha. tauto.
  - apply IH. inversion H; assumption.
Qed.

(** The bar chart gets at most twenty rows, all of them rows of the view,
    and every row left out has a visit count no greater than that of every
    row shown (or no visit count at all). *)
Theorem top_df_twenty_most_visited : forall df top,
  top_df df top ->
  List.length top = Nat.min 20 (List.length (rows df))
  /\ (forall r, In r top -> In r (rows df))
  /\ exists rest,
       Permutation (rows df) (top ++ rest)
       /\ Forall (fun a => Forall (key_ge visit_count a) rest) top.
Proof.
  intros df top [ranked [Hs ->]].
  pose proof (sort_values_desc_perm visit_count _ _ Hs) as P.
  pose proof (sort_values_desc_sorted visit_count _ _ Hs) as S.
  split; [| split].
  - rewrite length_firstn, (Permutation_length P). reflexivity.
  - intros r Hr. eapply Permutation_in; [apply Permutation_sym; exact P |].
    rewrite <- (firstn_skipn 20 ranked). apply in_or_app. left. exact Hr.
  - exists (skipn 20 ranked). rewrite firstn_skipn. split; [exact P |].
    apply sorted_app_cross. rewrite firstn_skipn. exact S.
Qed.

Lemma top_df_twenty_most_visited_witness :
  List.length (top_df_stable many_stores) = 20%nat
  /\ (forall r, In r (top_df_stable many_stores)
                -> In r (rows many_stores))
  /\ exists rest,
       Permutation (rows many_stores) (top_df_stable many_stores ++ rest)
       /\ Forall (fun a => Forall (key_ge visit_count a) rest)
                 (top_df_stable many_stores).
Proof.
  apply (top_df_twenty_most_visited many_stores (top_df_stable many_stores)).
  exists (stable_sort_desc visit_count (rows many_stores)).
  split; [apply stable_sort_desc_contract | reflexivity].
Defined.

Lemma categorize_number : forall g,
  (categorize (Some g) = StrongPerformer <-> (inject_Z 20 < g)%Q)
  /\ (categorize (Some g) = OpportunityArea <-> (g < inject_Z (-20))%Q).
Proof.
  intros g.
  pose proof labels_distinct as [D1 [D2 D3]].
  assert (G : gt_int (Some g) 20 = true <-> (inject_Z 20 < g)%Q).
  { rewrite gt_int_spec. split.
    - intros [q [E H]]. injection E as <-. exact H.
    - intros H. exists g. auto. }
  assert (L : lt_int (Some g) (-20) = true <-> (g < inject_Z (-20))%Q).
  { rewrite lt_int_spec. split.
    - intros [q [E H]]. injection E as <-. exact H.
    - intros H. exists g. auto. }
  assert (inject_Z (-20) < inject_Z 20)%Q by reflexivity.
  destruct (categorize_cases (Some g)) as [[Hg E] | [[Hg [Hl E]] | [Hg [Hl E]]]];
    rewrite E.
  - apply G in Hg. split; split; intros C; try reflexivity; try congruence.
    lra.
  - apply L in Hl. split; split; intros C; try reflexivity; try congruence.
    apply G in C. congruence.
  - split; split; intros C; try congruence.
    + apply G in C. congruence.
    + apply L in C. congruence.
Qed.

Lemma segment_order : forall ga gb,
  (gb <= ga)%Q ->
  (categorize (Some ga) <> StrongPerformer ->
   categorize (Some gb) <> StrongPerformer)
  /\ (categorize (Some ga) = OpportunityArea ->
      categorize (Some gb) = OpportunityArea).
Proof.
  intros ga gb H.
  destruct (categorize_number ga) as [Sa Oa].
  destruct (categorize_number gb) as [Sb Ob].
  split.
  - intros N C. apply N. apply Sa. apply Sb in C. lra.
  - intros C. apply Ob. apply Oa in C. lra.
Qed.

Lemma sorted_segments_in_blocks : forall l : list TableRow,
  StronglySorted (key_ge t_visits_gap_scaled) l ->
  Forall (fun t => t_visits_gap_scaled t <> None
                   /\ t_performance_segment t
                      = categorize (t_visits_gap_scaled t)) l ->
  exists strong on_target opportunity,
    l = strong ++ on_target ++ opportunity
    /\ Forall (fun t => t_performance_segment t = StrongPerformer) strong
    /\ Forall (fun t => t_performance_segment t = OnTarget) on_target
    /\ Forall (fun t => t_performance_segment t = OpportunityArea)
              opportunity.
Proof.
  intros l H. induction H as [| a l Hs IH Ha]; intros F.
  - exists [], [], []. repeat split; constructor.
  - inversion F as [| ? ? [Pa Sa] Fl]; subst.
    destruct (IH Fl) as [s [t [o [E [Fs [Ft Fo]]]]]].
    pose proof labels_distinct as [D1 [D2 D3]].
    destruct (t_visits_gap_scaled a) as [ga |] eqn:Ega; [| congruence].
    assert (Below : forall b, In b l ->
              exists gb, t_visits_gap_scaled b = Some gb
                         /\ t_performance_segment b = categorize (Some gb)
                         /\ (gb <= ga)%Q).
    { intros b Hb. rewrite Forall_forall in Ha, Fl.
      specialize (Ha b Hb). destruct (Fl b Hb) as [Pb Sb].
      unfold key_ge in Ha. rewrite Ega in Ha.
      destruct (t_visits_gap_scaled b) as [gb |]; [| congruence].
      exists gb. auto. }
    destruct (categorize_cases (Some ga))
      as [[_ C] | [[_ [_ C]] | [_ [_ C]]]].
    + exists (a :: s), t, o. rewrite E. split; [reflexivity |].
      split; [constructor; [congruence | exact Fs] | auto].
    + assert (Es : s = []).
      { destruct s as [| b s']; [reflexivity | exfalso].
        destruct (Below b) as [gb [_ [Sb Hle]]]; [rewrite E; left; reflexivity |].
        inversion Fs as [| ? ? Hb _]; subst.
        destruct (segment_order ga gb Hle) as [N _].
        apply N; congruence. }
      assert (Et : t = []).
      { destruct t as [| b t']; [reflexivity | exfalso].
        destruct (Below b) as [gb [_ [Sb Hle]]];
          [rewrite E, Es; left; reflexivity |].
        inversion Ft as [| ? ? Hb _]; subst.
        destruct (segment_order ga gb Hle) as [_ O].
        specialize (O C). congruence. }
      subst s t. exists [], [], (a :: o). rewrite E.
      split; [reflexivity |]. split; [constructor |].
      split; [constructor |]. constructor; [congruence | exact Fo].
    + assert (Es : s = []).
      { destruct s as [| b s']; [reflexivity | exfalso].
        destruct (Below b) as [gb [_ [Sb Hle]]]; [rewrite E; left; reflexivity |].
        inversion Fs as [| ? ? Hb _]; subst.
        destruct (segment_order ga gb Hle) as [N _].
        apply N; congruence. }
      subst s. exists [], (a :: t), o. rewrite E.
      split; [reflexivity |]. split; [constructor |].
      split; [constructor; [congruence | exact Ft] | exact Fo].
Qed.

(** In the table shown for a Filtered View the segments come in blocks:
    first every Strong Performer, then every On Target store, then every
    Opportunity Area. *)
Theorem shown_segments_in_blocks : forall ui df view highlight shown csv,
  filtered_view ui df = Ok view ->
  rendered view highlight shown csv ->
  exists strong on_target opportunity,
    shown = strong ++ on_target ++ opportunity
    /\ Forall (fun t => t_performance_segment t = StrongPerformer) strong
    /\ Forall (fun t => t_performance_segment t = OnTarget) on_target
    /\ Forall (fun t => t_performance_segment t = OpportunityArea)
              opportunity.
Proof.
  intros ui df view highlight shown csv Hv R.
  apply rendered_table in R. destruct R as [H1 [H2 _]].
  apply sorted_segments_in_blocks.
  - eapply sort_values_desc_sorted. exact H2.
  - eapply Permutation_Forall; [eapply sort_values_desc_perm; exact H2 |].
    apply Forall_map.
    eapply Permutation_Forall; [eapply sort_values_desc_perm; exact H1 |].
    apply filtered_view_spec in Hv. destruct Hv as [rng [_ ->]].
    eapply Forall_impl; [| apply filter_gap_present].
    intros r Hr. simpl. split; [exact Hr | reflexivity].
Qed.

Lemma shown_segments_in_blocks_witness :
  exists shown csv,
    render_stable three_segments = Ok (shown, csv)
    /\ map t_index shown = [1%nat; 2%nat; 0%nat]
    /\ exists strong on_target opportunity,
         shown = strong ++ on_target ++ opportunity
         /\ Forall (fun t => t_performance_segment t = StrongPerformer)
                   strong
         /\ Forall (fun t => t_performance_segment t = OnTarget) on_target
         /\ Forall (fun t => t_performance_segment t = OpportunityArea)
                   opportunity.
Proof.
  eexists. eexists. split; [reflexivity |]. split; [reflexivity |].
  eapply (shown_segments_in_blocks untouched three_segments three_segments
            (highlight_stable three_segments)).
  - reflexivity.
  - apply render_stable_rendered. reflexivity.
Defined.

(** On a view without rows the script stops at the map: the mean of an
    empty latitude column is NaN and [folium.Map] raises ValueError, so no
    table is shown and no CSV is offered. *)
Theorem empty_view_stops_at_map : forall df,
  rows df = [] ->
  draw_map df = Raise ValueError
  /\ render_stable df = Raise ValueError
  /\ forall highlight shown csv, ~ rendered df highlight shown csv.
Proof.
  intros df He.
  assert (D : draw_map df = Raise ValueError).
  { unfold draw_map. rewrite He. reflexivity. }
  assert (C : charts df = Raise ValueError).
  { unfold charts. rewrite D. reflexivity. }
  split; [exact D |]. split.
  - unfold render_stable. rewrite C. reflexivity.
  - intros highlight shown csv [R _]. rewrite C in R. discriminate.
Qed.

Lemma empty_view_stops_at_map_witness :
  filtered_view (only_range 1 4) positive_half = Ok (frame [])
  /\ render_stable (frame []) = Raise ValueError.
Proof.
  split; [reflexivity |].
  apply (empty_view_stops_at_map (frame []) eq_refl).
Defined.

(** A frame without its cluster or income_group column passes the filters,
    the filter on an absent column being skipped, but it gets no table and
    no CSV.  Once the map is drawn, a missing cluster column makes the
    scatter plot raise ValueError; with the cluster column there, a
    missing income_group column makes the column selection of the table
    raise KeyError. *)
Theorem missing_column_errors : forall df,
  draw_map df = Ok tt ->
  (has_cluster df = false ->
   (forall ui, filter_cluster ui df = df)
   /\ render_stable df = Raise ValueError
   /\ forall highlight shown csv, ~ rendered df highlight shown csv)
  /\ (has_cluster df = true -> has_income_group df = false ->
      (forall ui, filter_income ui df = df)
      /\ (forall highlight, select_table_cols df highlight = Raise KeyError)
      /\ render_stable df = Raise KeyError
      /\ forall highlight shown csv, ~ rendered df highlight shown csv).
Proof.
  intros df D. split.
  - intros Hc.
    assert (C : charts df = Raise ValueError).
    { unfold charts, scatter_plot. rewrite D, Hc. reflexivity. }
    split; [intros ui; unfold filter_cluster; rewrite Hc; reflexivity |].
    split; [unfold render_stable; rewrite C; reflexivity |].
    intros highlight shown csv [R _]. rewrite C in R. discriminate.
  - intros Hc Hi.
    assert (C : charts df = Ok tt).
    { unfold charts, scatter_plot. rewrite D, Hc. reflexivity. }
    assert (K : forall highlight, select_table_cols df highlight
                                  = Raise KeyError).
    { intros highlight. unfold select_table_cols. rewrite Hc, Hi.
      reflexivity. }
    split; [intros ui; unfold filter_income; rewrite Hi; reflexivity |].
    split; [exact K |]. split.
    + unfold render_stable. rewrite C. simpl. rewrite K. reflexivity.
    + intros highlight shown csv [_ [_ [t [Ht _]]]]. rewrite K in Ht.
      discriminate.
Qed.

Lemma missing_column_errors_witness :
  (exists view, filtered_view untouched no_cluster_column = Ok view)
  /\ render_stable no_cluster_column = Raise ValueError
  /\ (exists view, filtered_view untouched no_income_column = Ok view)
  /\ render_stable no_income_column = Raise KeyError.
Proof.
  split; [eexists; reflexivity |]. split.
  - apply (proj1 (missing_column_errors no_cluster_column eq_refl)).
    reflexivity.
  - split; [eexists; reflexivity |].
    apply (proj2 (missing_column_errors no_income_column eq_refl));
      reflexivity.
Defined.

Lemma dict_get_color : forall z,
  (z = 0 /\ dict_get color_map (Some z) "gray" = "red"%string)
  \/ (z = 1 /\ dict_get color_map (Some z) "gray" = "blue"%string)
  \/ (z = 2 /\ dict_get color_map (Some z) "gray" = "green"%string)
  \/ (z <> 0 /\ z <> 1 /\ z <> 2
      /\ dict_get color_map (Some z) "gray" = "gray"%string).
Proof.
  intros z. unfold color_map, dict_get.
  destruct (Z.eqb_spec 0 z) as [<- | N0]; [left; auto |].
  destruct (Z.eqb_spec 1 z) as [<- | N1]; [right; left; auto |].
  destruct (Z.eqb_spec 2 z) as [<- | N2]; [right; right; left; auto |].
  right. right. right. repeat split; congruence.
Qed.

(** A marker is gray exactly when its row has none of the clusters 0, 1
    and 2: another cluster, a missing cluster, or no cluster column at
    all; otherwise it is red, blue or green, one colour per cluster. *)
Theorem marker_color_default_gray : forall df row,
  (marker_color df row = "gray"%string
   <-> ~ (has_cluster df = true
          /\ (cluster row = Some 0 \/ cluster row = Some 1
              \/ cluster row = Some 2)))
  /\ (marker_color df row = "red"%string
      <-> has_cluster df = true /\ cluster row = Some 0)
  /\ (marker_color df row = "blue"%string
      <-> has_cluster df = true /\ cluster row = Some 1)
  /\ (marker_color df row = "green"%string
      <-> has_cluster df = true /\ cluster row = Some 2).
Proof.
  intros df row. unfold marker_color, row_get_cluster.
  destruct (has_cluster df).
  - destruct (cluster row) as [z |].
    + destruct (dict_get_color z)
        as [[-> E] | [[-> E] | [[-> E] | [N0 [N1 [N2 E]]]]]]; rewrite E.
      * split; [split; [discriminate | intros C; exfalso; apply C; auto] |].
        split; [split; auto |].
        split; split; try discriminate; intros [_ C]; discriminate C.
      * split; [split; [discriminate | intros C; exfalso; apply C; auto] |].
        split; [split; [discriminate | intros [_ C]; discriminate C] |].
        split; [split; auto |].
        split; [discriminate | intros [_ C]; discriminate C].
      * split; [split; [discriminate | intros C; exfalso; apply C; auto] |].
        split; [split; [discriminate | intros [_ C]; discriminate C] |].
        split; [split; [discriminate | intros [_ C]; discriminate C] |].
        split; auto.
      * split.
        { split; [| reflexivity]. intros _ [_ [C | [C | C]]];
            injection C as C; congruence. }
        split; [split; [discriminate | intros [_ C]; injection C as C;
                                        congruence] |].
        split; [split; [discriminate | intros [_ C]; injection C as C;
                                        congruence] |].
        split; [discriminate | intros [_ C]; injection C as C; congruence].
    + simpl. split.
      { split; [| reflexivity]. intros _ [_ [C | [C | C]]]; discriminate C. }
      split; [split; [discriminate | intros [_ C]; discriminate C] |].
      split; [split; [discriminate | intros [_ C]; discriminate C] |].
      split; [discriminate | intros [_ C]; discriminate C].
  - simpl. split.
    { split; [| reflexivity]. intros _ [C _]. discriminate C. }
    split; [split; [discriminate | intros [C _]; discriminate C] |].
    split; [split; [discriminate | intros [C _]; discriminate C] |].
    split; [discriminate | intros [C _]; discriminate C].
Qed.

End ChartFacts.
